(** * De-Center: the data-center evidence scraper ([src/scraper.py])

    A shallow embedding of [DataCenterScraper] and the properties of its
    source adapters, claim extractor and orchestrator.

    Modelling conventions.
    - A Python [str] is a [list ascii]; a character is a code point below
      256 (the Latin-1 range), on which [str.isspace], [str.lower] and the
      regular-expression classes [\s] and [\d] are tabulated below.
    - A parsed page (a BeautifulSoup tree) is a [node]; [find], [find_all]
      and [get_text] follow the library: they walk [descendants] in
      document order.  A string of the tree carries its class, and the text
      of a tag is made of the strings of the classes the tag is interested
      in: the text of a [script], [style], [template], [rt] or [rp] and
      the comments are no text of the elements around them.
    - [requests.get] and [datetime.now] are effects on a world [W], threaded
      through a state monad; the fixed headers and timeout of a request
      belong to [http_get].  A response has its status code, and
      [raise_for_status] raises for the codes from 400 to 599 only.
    - The [except] clauses around a fetch catch [requests.RequestException]:
      the exception of a parser that rejects the markup goes through them,
      up to the caller of [run_full_scrape].  A call that can raise returns
      an [outcome].  Logging changes no result and is left out. *)

From Stdlib Require Import Ascii String.
From Stdlib Require Import List Bool Arith Lia NArith ZArith.
Import ListNotations.

Set Implicit Arguments.

(** ** Strings *)

Module Str.

Definition str := list ascii.

Definition lit (s : string) : str := list_ascii_of_string s.

Definition code (c : ascii) : N := N_of_ascii c.

(** [str.isspace] on one character, which is also the class [\s] of [re]
    on [str] patterns. *)
Definition isspace (c : ascii) : bool :=
  let n := code c in
  ((9 <=? n) && (n <=? 13) || (28 <=? n) && (n <=? 32)
   || (n =? 133) || (n =? 160))%N.

(** The class [\d] of [re]: decimal digits. *)
Definition isdigit (c : ascii) : bool :=
  let n := code c in ((48 <=? n) && (n <=? 57))%N.

(** The class [[.!?]]. *)
Definition is_terminator (c : ascii) : bool :=
  let n := code c in ((n =? 46) || (n =? 33) || (n =? 63))%N.

(** [str.lower] on one character. *)
Definition lower_char (c : ascii) : ascii :=
  let n := code c in
  if ((65 <=? n) && (n <=? 90)
      || (192 <=? n) && (n <=? 222) && negb (n =? 215))%N
  then ascii_of_N (n + 32) else c.

Definition lower (s : str) : str := map lower_char s.

Fixpoint lstrip (s : str) : str :=
  match s with
  | c :: r => if isspace c then lstrip r else s
  | [] => []
  end.

Definition rstrip (s : str) : str := rev (lstrip (rev s)).

(** [str.strip()] *)
Definition strip (s : str) : str := rstrip (lstrip s).

Fixpoint startswith (s p : str) {struct p} : bool :=
  match p, s with
  | [], _ => true
  | _ :: _, [] => false
  | a :: p', b :: s' => Ascii.eqb a b && startswith s' p'
  end.

(** [sub in s] *)
Fixpoint contains (sub s : str) : bool :=
  startswith s sub ||
  match s with
  | [] => false
  | _ :: r => contains sub r
  end.

Definition str_eqb (a b : str) : bool :=
  if list_eq_dec ascii_dec a b then true else false.

(** [sep.join(l)] *)
Fixpoint join (sep : str) (l : list str) : str :=
  match l with
  | [] => []
  | [x] => x
  | x :: r => x ++ sep ++ join sep r
  end.

(** [s.split(sep)[0]]: the part of [s] before the first occurrence of a
    non-empty [sep], all of [s] when there is none. *)
Fixpoint split_head (sep s : str) : str :=
  match s with
  | [] => []
  | c :: r => if startswith s sep then [] else c :: split_head sep r
  end.

(** [bool(s)] of a string. *)
Definition truthy (s : str) : bool :=
  match s with [] => false | _ => true end.

End Str.
Import Str.

(** ** Sentence segmentation: [re.split(r'[.!?]\s+', text)] *)

Definition head_isspace (s : str) : bool :=
  match s with c :: _ => isspace c | [] => false end.

(** The match of [[.!?]\s+] at the start of [s]: the rest of [s] after the
    terminator and the longest run of whitespace. *)
Definition match_sep (s : str) : option str :=
  match s with
  | c :: r => if is_terminator c && head_isspace r then Some (lstrip r) else None
  | [] => None
  end.

Definition cons_head (c : ascii) (ps : list str) : list str :=
  match ps with
  | p :: ps' => (c :: p) :: ps'
  | [] => [[c]]
  end.

(** The pieces between successive leftmost matches.  [skipping] is set
    while the whitespace run of a match is being consumed. *)
Fixpoint re_split_from (skipping : bool) (s : str) : list str :=
  match s with
  | [] => [[]]
  | c :: r =>
      if skipping && isspace c then re_split_from true r
      else if is_terminator c && head_isspace r then [] :: re_split_from true r
      else cons_head c (re_split_from false r)
  end.

Definition re_split (text : str) : list str := re_split_from false text.

(** [re.search(r'\d+', s)] as a truth value. *)
Definition re_search_digits (s : str) : bool := existsb isdigit s.


(** ** Parsed pages: the BeautifulSoup tree *)

Module Soup.

(** An attribute value is a string, or a list of strings for the
    multi-valued attributes ([class]). *)
Inductive attr_value :=
| AttrStr (s : str)
| AttrList (l : list str).

(** The class of a string of the tree.  The parser gives a text the
    class of the innermost [rt], [rp], [style], [script] or [template]
    element around it, [NavigableString] when there is none; a CDATA
    section is a [CData] wherever it is; [Comment] stands for comments,
    declarations, doctypes and processing instructions. *)
Inductive string_class :=
| NavigableString
| CData
| Script
| Stylesheet
| TemplateString
| RubyTextString
| RubyParenthesisString
| Comment.

(** A string with its class, or a [Tag] with its [attrs] dict and
    [contents]. *)
#[local] Unset Elimination Schemes.
Inductive node :=
| Text (cls : string_class) (s : str)
| Elem (name : str) (attrs : list (str * attr_value)) (children : list node).
#[local] Set Elimination Schemes.

(** [tag.descendants]: every node below [n], in document order. *)
Fixpoint descendants (n : node) : list node :=
  match n with
  | Text _ _ => []
  | Elem _ _ cs =>
      (fix walk (l : list node) : list node :=
         match l with
         | [] => []
         | c :: r => c :: descendants c ++ walk r
         end) cs
  end.

Fixpoint dict_get {V} (key : str) (d : list (str * V)) : option V :=
  match d with
  | [] => None
  | (k, v) :: r => if str_eqb k key then Some v else dict_get key r
  end.

(** [tag.get(key)] *)
Definition tag_get (n : node) (key : str) : option attr_value :=
  match n with
  | Elem _ attrs _ => dict_get key attrs
  | Text _ _ => None
  end.

(** The arguments of [find] and [find_all]: a tag name, a list of tag
    names or nothing, and [class_] or nothing. *)
Record selector := Sel { sel_names : option (list str); sel_class : option str }.

Definition by_name (nm : string) : selector := Sel (Some [lit nm]) None.
Definition by_names (nms : list string) : selector := Sel (Some (map lit nms)) None.
Definition by_name_class (nm cls : string) : selector := Sel (Some [lit nm]) (Some (lit cls)).
Definition by_class (cls : string) : selector := Sel None (Some (lit cls)).

Definition name_in (nm : str) (names : list str) : bool :=
  existsb (str_eqb nm) names.

(** A multi-valued attribute matches a string when one of its values is
    the string, or when the values joined by a space are. *)
Definition class_matches (v : option attr_value) (cls : str) : bool :=
  match v with
  | None => false
  | Some (AttrStr s) => str_eqb s cls
  | Some (AttrList l) => existsb (fun x => str_eqb x cls) l || str_eqb (join (lit " ") l) cls
  end.

Definition matches (sel : selector) (n : node) : bool :=
  match n with
  | Text _ _ => false
  | Elem nm attrs _ =>
      match sel_names sel with
      | None => true
      | Some names => name_in nm names
      end &&
      match sel_class sel with
      | None => true
      | Some cls => class_matches (dict_get (lit "class") attrs) cls
      end
  end.

Definition find_all (sel : selector) (n : node) : list node :=
  filter (matches sel) (descendants n).

(** [find] is [find_all] with [limit=1]: the first match in document
    order, or [None]. *)
Definition find (sel : selector) (n : node) : option node :=
  hd_error (find_all sel n).

Definition string_class_eqb (a b : string_class) : bool :=
  match a, b with
  | NavigableString, NavigableString | CData, CData | Script, Script
  | Stylesheet, Stylesheet | TemplateString, TemplateString
  | RubyTextString, RubyTextString
  | RubyParenthesisString, RubyParenthesisString | Comment, Comment => true
  | _, _ => false
  end.

(** [builder.string_containers]: the elements whose text has a class of
    its own. *)
Definition string_containers : list (str * string_class) :=
  [ (lit "rt", RubyTextString); (lit "rp", RubyParenthesisString);
    (lit "style", Stylesheet); (lit "script", Script);
    (lit "template", TemplateString) ].

(** [tag.interesting_string_types]: the classes of the strings that count
    as the text of a tag: those of its own class for a container, the
    plain ones for every other tag. *)
Definition interesting_string_types (n : node) : list string_class :=
  match n with
  | Elem nm _ _ =>
      match dict_get nm string_containers with
      | Some c => [c]
      | None => [NavigableString; CData]
      end
  | Text _ _ => []
  end.

(** [tag._all_strings()]: the strings below [n] whose class is one of its
    interesting ones, in document order. *)
Definition strings (n : node) : list str :=
  flat_map (fun d =>
              match d with
              | Text c s =>
                  if existsb (string_class_eqb c) (interesting_string_types n)
                  then [s] else []
              | Elem _ _ _ => []
              end)
           (descendants n).

(** [tag.get_text()] *)
Definition get_text (n : node) : str := concat (strings n).

(** [tag.get_text(separator=sep, strip=True)]: each string is stripped and
    the empty ones are dropped. *)
Definition get_text_strip (sep : str) (n : node) : str :=
  join sep (filter truthy (map strip (strings n))).

(** [for t in soup(names): t.decompose()]: every element with one of the
    names is removed from the tree, with all it contains. *)
Fixpoint decompose_all (names : list str) (n : node) : node :=
  match n with
  | Text c s => Text c s
  | Elem nm attrs cs =>
      Elem nm attrs
        ((fix prune (l : list node) : list node :=
            match l with
            | [] => []
            | c :: r =>
                match c with
                | Elem cn _ _ =>
                    if name_in cn names then prune r
                    else decompose_all names c :: prune r
                | Text _ _ => c :: prune r
                end
            end) cs)
  end.

End Soup.
Import Soup.

(** ** Records *)

(** The two shapes of dict the adapters append to [results]. *)
Inductive SourceRecord :=
| LegistarLegislation (city title : str) (url : option str) (date search_term : str)
| News (source title : str) (url : option str) (date : str).

(** [source.get('url')] *)
Definition source_url_of (s : SourceRecord) : option str :=
  match s with
  | LegistarLegislation _ _ u _ _ => u
  | News _ _ u _ => u
  end.

(** [source.get('title', 'Unknown')]: both shapes carry the key. *)
Definition source_title_of (s : SourceRecord) : str :=
  match s with
  | LegistarLegislation _ t _ _ _ => t
  | News _ t _ _ => t
  end.

Definition source_date_of (s : SourceRecord) : str :=
  match s with
  | LegistarLegislation _ _ _ d _ => d
  | News _ _ _ d => d
  end.

Record Claim := mkClaim {
  text : str;
  source_url : str;
  source_title : str;
  extracted_at : str
}.

Record HarvestReport := mkReport {
  sources : list SourceRecord;
  claims : list Claim;
  scraped_at : str;
  total_sources : nat;
  total_claims : nat
}.

(** ** Configuration: [DataCenterScraper.__init__] *)

Definition base_urls : list (str * str) :=
  [ (lit "sanjose_legistar", lit "https://sanjose.legistar.com");
    (lit "santaclara_legistar", lit "https://santaclara.legistar.com");
    (lit "svp_news", lit "https://www.siliconvalleypower.com/home/components/news/news");
    (lit "sjce_news", lit "https://sanjosecleanenergy.org") ].

Definition keywords : list str :=
  map lit [ "data center"; "datacenter"; "rate increase"; "rate hike";
            "grid upgrade"; "infrastructure"; "water restriction";
            "electricity load"; "capacity"; "resilience" ]%string.

Definition strong_words : list str :=
  map lit [ "must"; "require"; "will"; "shall"; "project" ]%string.

(** ** Items of a listing *)

(** What one turn of a listing loop does: [continue] at a guard, an
    exception caught by the loop's [except Exception], or an append to
    [results]. *)
Inductive item_result (A : Type) :=
| Skipped
| Raised
| Emitted (a : A).
Arguments Skipped {A}.
Arguments Raised {A}.

Fixpoint emitted {A} (l : list (item_result A)) : list A :=
  match l with
  | [] => []
  | Emitted a :: r => a :: emitted r
  | _ :: r => emitted r
  end.

Definition attr_truthy (v : attr_value) : bool :=
  match v with
  | AttrStr s => truthy s
  | AttrList l => match l with [] => false | _ => true end
  end.

(** [link['href'] if link and link.get('href') else None] *)
Definition link_href (link : option node) : option attr_value :=
  match link with
  | Some l =>
      match tag_get l (lit "href") with
      | Some v => if attr_truthy v then Some v else None
      | None => None
      end
  | None => None
  end.

(** [if url and not url.startswith('http'): url = prefix + url].  A list
    has no [startswith]: the call raises and the result is [None]. *)
Definition resolve_url (prefix : str) (url : option attr_value) : option (option str) :=
  match url with
  | None => Some None
  | Some (AttrStr u) =>
      Some (Some (if negb (startswith u (lit "http")) then prefix ++ u else u))
  | Some (AttrList _) => None
  end.

(** The body of the loop over [rows] in [search_legistar_legislation]. *)
Definition legistar_row (base_url city search_term : str) (row : node)
  : item_result SourceRecord :=
  match find (by_name_class "td" "title") row with
  | None => Skipped
  | Some title_cell =>
      let title := get_text_strip [] title_cell in
      let link := find (by_name "a") title_cell in
      match resolve_url base_url (link_href link) with
      | None => Raised
      | Some url =>
          let date_str :=
            match find (by_name_class "td" "date") row with
            | Some date_cell => get_text_strip [] date_cell
            | None => lit "N/A"
            end in
          Emitted (LegistarLegislation city title url date_str search_term)
      end
  end.

(** [self.base_urls[key]], for the keys of the table. *)
Definition base_url_item (key : str) : str :=
  match dict_get key base_urls with
  | Some u => u
  | None => []
  end.

(** The prefix put before a relative news link. *)
Definition news_prefix (source : str) : str :=
  split_head (lit "/home") (base_url_item (source ++ lit "_news")).

(** [x or y] on two [find] results: a [Tag] is always true. *)
Definition or_else {A} (x y : option A) : option A :=
  match x with Some _ => x | None => y end.

(** [article.find(['h3', 'h2', 'a'])] *)
Definition news_title_elem (article : node) : option node :=
  find (by_names ["h3"; "h2"; "a"]%string) article.

(** The body of the loop over [articles] in [search_news_sources]. *)
Definition news_article (source : str) (article : node)
  : item_result SourceRecord :=
  match news_title_elem article with
  | None => Skipped
  | Some title_elem =>
      let title := get_text_strip [] title_elem in
      let article_text := lower (get_text article) in
      if negb (existsb (fun kw => contains kw article_text) keywords) then Skipped
      else
        let link := find (by_name "a") article in
        match resolve_url (news_prefix source) (link_href link) with
        | None => Raised
        | Some url =>
            let date_str :=
              match or_else (find (by_name "time") article)
                            (find (by_class "date") article) with
              | Some date_elem => get_text_strip [] date_elem
              | None => lit "N/A"
              end in
            Emitted (News source title url date_str)
        end
  end.

(** The guards of the loop over [sentences] in [extract_claims_from_text]. *)
Definition claim_sentence (sentence : str) : bool :=
  (20 <=? length sentence)
  && existsb (fun kw => contains kw (lower sentence)) keywords
  && (re_search_digits sentence
      || existsb (fun word => contains word (lower sentence)) strong_words).

(** ** The outside world *)

Record Request := mkRequest {
  req_url : str;
  req_params : list (str * str)
}.

(** What [requests.get] gives: a [requests.RequestException] (no
    connection, a timeout, a URL that cannot be requested), or a response
    with its status code.  [parsed] is what
    [BeautifulSoup(response.content, 'html.parser')] makes of the content:
    the tree, or [None] when the parser rejects the markup and the
    constructor raises. *)
Inductive Response :=
| RequestException
| Reply (status_code : N) (parsed : option node).

(** [response.raise_for_status()] raises an [HTTPError], which is a
    [RequestException], for the client and server error codes. *)
Definition raise_for_status (status_code : N) : bool :=
  ((400 <=? status_code) && (status_code <? 600))%N.

(** The exception that no [except] clause of the scraper catches. *)
Inductive exn :=
| ParserRejectedMarkup.

(** A call returns a value or raises. *)
Inductive outcome (A : Type) :=
| Returns (a : A)
| Raises (e : exn).
Arguments Raises {A}.

(** The three lines at the head of each [try]: the request,
    [raise_for_status] and the parse.  The [except] clause catches the
    [RequestException] of the first two; the exception of the parse is
    none and goes through. *)
Inductive fetched :=
| RequestFailed
| Rejected
| Parsed (soup : node).

Definition fetched_of (response : Response) : fetched :=
  match response with
  | RequestException => RequestFailed
  | Reply status_code parsed =>
      if raise_for_status status_code then RequestFailed
      else match parsed with
           | Some soup => Parsed soup
           | None => Rejected
           end
  end.

Section Scraper.

Variable W : Type.
Variable http_get : Request -> W -> Response * W.
(** [datetime.now().isoformat()] *)
Variable now : W -> str * W.

(** Code that cannot raise: a state monad. *)
Definition M (A : Type) : Type := W -> A * W.
Definition ret {A} (a : A) : M A := fun w => (a, w).
Definition bind {A B} (m : M A) (k : A -> M B) : M B :=
  fun w => let (a, w') := m w in k a w'.

Notation "x <- m ;; k" := (bind m (fun x => k))
  (at level 61, m at next level, right associativity).

(** Code that can raise: the world is the one at the raise. *)
Definition E (A : Type) : Type := W -> outcome A * W.
Definition ret_E {A} (a : A) : E A := fun w => (Returns a, w).
Definition raise {A} (e : exn) : E A := fun w => (Raises e, w).
Definition lift {A} (m : M A) : E A := fun w => let (a, w') := m w in (Returns a, w').
Definition bind_E {A B} (m : E A) (k : A -> E B) : E B :=
  fun w =>
    match m w with
    | (Returns a, w') => k a w'
    | (Raises e, w') => (Raises e, w')
    end.

Notation "x <-- m ;; k" := (bind_E m (fun x => k))
  (at level 61, m at next level, right associativity).

(** [for x in xs: acc.extend(body(x))] *)
Fixpoint for_extend {A B} (xs : list A) (body : A -> M (list B)) (acc : list B)
  : M (list B) :=
  match xs with
  | [] => ret acc
  | x :: r => ys <- body x ;; for_extend r body (acc ++ ys)
  end.

(** The same loop around a body that can raise: the exception ends it. *)
Fixpoint for_extend_E {A B} (xs : list A) (body : A -> E (list B)) (acc : list B)
  : E (list B) :=
  match xs with
  | [] => ret_E acc
  | x :: r => ys <-- body x ;; for_extend_E r body (acc ++ ys)
  end.

Definition search_legistar_legislation (city search_term : str) (days_back : Z)
  : E (list SourceRecord) :=
  match dict_get (city ++ lit "_legistar") base_urls with
  | None => ret_E []
  | Some base_url =>
      if negb (truthy base_url) then ret_E []
      else
        let search_url := base_url ++ lit "/Legislation.aspx" in
        let params := [(lit "Search", search_term); (lit "FullText", lit "1")] in
        response <-- lift (http_get (mkRequest search_url params)) ;;
        match fetched_of response with
        | RequestFailed => ret_E []
        | Rejected => raise ParserRejectedMarkup
        | Parsed soup =>
            let rows := find_all (by_name_class "tr" "row") soup in
            ret_E (emitted (map (legistar_row base_url city search_term) rows))
        end
  end.

Definition search_news_sources (source : str) : E (list SourceRecord) :=
  if str_eqb source (lit "svp") || str_eqb source (lit "sjce") then
    let url := base_url_item (source ++ lit "_news") in
    response <-- lift (http_get (mkRequest url [])) ;;
    match fetched_of response with
    | RequestFailed => ret_E []
    | Rejected => raise ParserRejectedMarkup
    | Parsed soup =>
        let articles :=
          match find_all (by_name "article") soup with
          | [] => find_all (by_name_class "div" "news-item") soup
          | l => l
          end in
        ret_E (emitted (map (news_article source) articles))
    end
  else ret_E [].

Definition extract_text_from_url (url : str) : E (option str) :=
  response <-- lift (http_get (mkRequest url [])) ;;
  match fetched_of response with
  | RequestFailed => ret_E None
  | Rejected => raise ParserRejectedMarkup
  | Parsed soup =>
      let t := get_text_strip ["010"%char]
                 (decompose_all [lit "script"; lit "style"] soup) in
      ret_E (if truthy t then Some t else None)
  end.

(** The body of the loop over [sentences] in [extract_claims_from_text]. *)
Definition sentence_claims (source_url source_title sentence : str)
  : M (list Claim) :=
  let sentence := strip sentence in
  if claim_sentence sentence then
    t <- now ;;
    ret [mkClaim sentence source_url source_title t]
  else ret [].

Definition extract_claims_from_text (text source_url source_title : str)
  : M (list Claim) :=
  let sentences := re_split text in
  for_extend sentences (sentence_claims source_url source_title) [].

(** The body of the loop over [all_sources] in [run_full_scrape]. *)
Definition source_claims (source : SourceRecord) : E (list Claim) :=
  match source_url_of source with
  | Some url =>
      if truthy url then
        text <-- extract_text_from_url url ;;
        match text with
        | Some text =>
            lift (extract_claims_from_text text url (source_title_of source))
        | None => ret_E []
        end
      else ret_E []
  | None => ret_E []
  end.

Definition run_full_scrape : E HarvestReport :=
  all_sources <--
    for_extend_E [lit "sanjose"; lit "santaclara"]
      (fun city => search_legistar_legislation city (lit "data center") 90) [] ;;
  all_sources <--
    for_extend_E [lit "svp"; lit "sjce"]
      (fun source => search_news_sources source) all_sources ;;
  all_claims <-- for_extend_E all_sources source_claims [] ;;
  t <-- lift now ;;
  ret_E (mkReport all_sources all_claims t (length all_sources) (length all_claims)).

End Scraper.

(** * Vocabulary of the statements *)

(** The whitespace [lstrip] removes. *)
Fixpoint lspaces (s : str) : str :=
  match s with
  | c :: r => if isspace c then c :: lspaces r else []
  | [] => []
  end.

(** A string is trimmed when neither end is whitespace. *)
Definition trimmed (s : str) : Prop :=
  head_isspace s = false /\ head_isspace (rev s) = false.

(** Running [body] on each element in turn, the world threaded through:
    the list of the results, one per element. *)
Fixpoint each {W A B} (body : A -> W -> B * W) (xs : list A) (w : W)
  : list B * W :=
  match xs with
  | [] => ([], w)
  | x :: r =>
      let (y, w1) := body x w in
      let (ys, w2) := each body r w1 in
      (y :: ys, w2)
  end.

(** The same around a body that can raise: the results when every turn
    returns, the first exception otherwise, with the world at that point. *)
Fixpoint each_E {W A B} (body : A -> W -> outcome B * W) (xs : list A) (w : W)
  : outcome (list B) * W :=
  match xs with
  | [] => (Returns [], w)
  | x :: r =>
      match body x w with
      | (Returns y, w1) =>
          match each_E body r w1 with
          | (Returns ys, w2) => (Returns (y :: ys), w2)
          | (Raises e, w2) => (Raises e, w2)
          end
      | (Raises e, w1) => (Raises e, w1)
      end
  end.

(** A digit sequence: a non-empty run of decimal digits. *)
Definition digit_sequence (ds : str) : Prop :=
  ds <> [] /\ forallb isdigit ds = true.

(** [sub] occurs in [s]. *)
Definition occurs_in (sub s : str) : Prop :=
  exists pre post, s = pre ++ sub ++ post.

(** The text of the two-sentence scenario and its two sentences, as the
    segmentation leaves them. *)
Definition scenario_text : str :=
  lit "The data center will require 50 MW of new capacity. This sentence has no keyword at all and is long.".

Definition scenario_first : str :=
  lit "The data center will require 50 MW of new capacity".

Definition scenario_second : str :=
  lit "This sentence has no keyword at all and is long.".

(** The matches of [[.!?]\s+] in a text, leftmost first: the separators
    that [re.split] removes ([re.findall]). *)
Fixpoint separators_from (skipping : bool) (s : str) : list str :=
  match s with
  | [] => []
  | c :: r =>
      if skipping && isspace c then separators_from true r
      else if is_terminator c && head_isspace r
           then (c :: lspaces r) :: separators_from true r
           else separators_from false r
  end.

Definition separators (text : str) : list str := separators_from false text.

(** A separator: a terminator and the whitespace after it. *)
Definition is_separator (sep : str) : Prop :=
  exists t ws, sep = t :: ws /\ is_terminator t = true /\
               ws <> [] /\ forallb isspace ws = true.

(** The pieces with a separator between each two. *)
Fixpoint interleave (ps seps : list str) : str :=
  match ps with
  | [] => []
  | p :: ps' =>
      match seps with
      | [] => p
      | s :: seps' => p ++ s ++ interleave ps' seps'
      end
  end.

(** Pieces, each followed by its separator. *)
Fixpoint terminated (ps seps : list str) : str :=
  match ps, seps with
  | p :: ps', s :: seps' => p ++ s ++ terminated ps' seps'
  | _, _ => []
  end.

Definition ends_with (c : ascii) (s : str) : Prop := exists q, s = q ++ [c].

Definition ends_with_terminator (s : str) : Prop :=
  exists c, is_terminator c = true /\ ends_with c s.

(** A terminator followed by whitespace somewhere in [s]. *)
Definition has_match (s : str) : Prop :=
  exists pre t w post,
    s = pre ++ t :: w :: post /\ is_terminator t = true /\ isspace w = true.

(** An absolute URL, as the adapters are to emit them: one with the
    [http] or [https] scheme. *)
Definition is_absolute_url (u : str) : bool :=
  startswith u (lit "http://") || startswith u (lit "https://").







(** The classes of the strings of [n] are those the parser gives, below
    an innermost container of class [ctx]. *)
Fixpoint classes_as_parsed (ctx : string_class) (n : node) : bool :=
  match n with
  | Text c _ =>
      match c with
      | CData | Comment => true
      | _ => string_class_eqb c ctx
      end
  | Elem nm _ cs =>
      let ctx' := match dict_get nm string_containers with
                  | Some c => c
                  | None => ctx
                  end in
      (fix all (l : list node) : bool :=
         match l with
         | [] => true
         | c :: r => classes_as_parsed ctx' c && all r
         end) cs
  end.

(** The records a call gives: those it returns, none when it raises. *)
Definition records {A} (o : outcome (list A)) : list A :=
  match o with
  | Returns l => l
  | Raises _ => []
  end.

(** The call returned: it did not raise. *)
Definition returned {A} (o : outcome A) : Prop := exists a, o = Returns a.

(** A Claim without its time stamp. *)
Definition claim_content (c : Claim) : str * str * str :=
  (text c, source_url c, source_title c).

(** Two outcomes agree: both raise, or both return, values that [R]
    relates. *)
Definition outcome_rel {A} (R : A -> A -> Prop) (o1 o2 : outcome A) : Prop :=
  match o1, o2 with
  | Returns a, Returns b => R a b
  | Raises _, Raises _ => True
  | _, _ => False
  end.

(** Two lists of Claims are the same up to the time stamps. *)
Definition same_content (a b : list Claim) : Prop :=
  map claim_content a = map claim_content b.

(** The request fails as the adapters mean it: [requests] raises, for a
    network error, a timeout, or a status code from 400 to 599. *)
Definition request_fails (response : Response) : Prop :=
  response = RequestException \/
  exists status_code parsed,
    response = Reply status_code parsed /\
    (400 <= status_code < 600)%N.

(** The parser accepts every page that is given to it. *)
Definition parser_accepts {W} (http_get : Request -> W -> Response * W) : Prop :=
  forall req w, fetched_of (fst (http_get req w)) <> Rejected.

(** The origins the orchestrator visits, in its order. *)
Inductive origin :=
| Register (city : str)
| NewsListing (source : str).

Definition origins : list origin :=
  [ Register (lit "sanjose"); Register (lit "santaclara");
    NewsListing (lit "svp"); NewsListing (lit "sjce") ].


(** The adapter call the orchestrator makes for an origin. *)
Definition search_origin {W} (http_get : Request -> W -> Response * W)
  (o : origin) : W -> outcome (list SourceRecord) * W :=
  match o with
  | Register city =>
      search_legistar_legislation http_get city (lit "data center") 90
  | NewsListing source => search_news_sources http_get source
  end.

(** The world in which the orchestrator calls the adapter of the [i]-th
    origin: the one the adapters of the origins before it have left. *)
Definition world_before {W} (http_get : Request -> W -> Response * W)
  (i : nat) (w : W) : W :=
  snd (each_E (search_origin http_get) (firstn i origins) w).

(** The first [n] readings of the clock, and the world after them. *)
Fixpoint readings {W} (now : W -> str * W) (n : nat) (w : W) : list str * W :=
  match n with
  | O => ([], w)
  | S k =>
      let (t, w1) := now w in
      let (ts, w2) := readings now k w1 in
      (t :: ts, w2)
  end.

(** The node is an element with one of the names. *)
Definition named (names : list str) (n : node) : bool :=
  match n with
  | Elem nm _ _ => name_in nm names
  | Text _ _ => false
  end.

(** The names [extract_text_from_url] removes. *)
Definition non_content : list str := [lit "script"; lit "style"].


Definition listing_blocks (soup : node) : list node :=
  match find_all (by_name "article") soup with
  | [] => find_all (by_name_class "div" "news-item") soup
  | l => l
  end.



Definition is_register_record (s : SourceRecord) : Prop :=
  exists city title url date,
    s = LegistarLegislation city title url date (lit "data center") /\
    (city = lit "sanjose" \/ city = lit "santaclara").

Definition is_news_record (s : SourceRecord) : Prop :=
  exists source title url date,
    s = News source title url date /\
    (source = lit "svp" \/ source = lit "sjce").

(** * A test world *)

Module TestWorld.

Definition el (name : string) (attrs : list (str * attr_value)) (children : list node) : node :=
  Elem (lit name) attrs children.
Definition txt (s : string) : node := Text NavigableString (lit s).
Definition class (c : string) : str * attr_value := (lit "class", AttrList [lit c]).
Definition href (h : string) : str * attr_value := (lit "href", AttrStr (lit h)).

Definition row_linked : node :=
  el "tr" [class "row"]
    [ el "td" [class "title"]
        [ el "a" [href "/LegislationDetail.aspx?ID=1"] [txt "Data center siting ordinance"] ];
      el "td" [class "date"] [txt " 1/2/2024 "] ].

Definition row_unlinked : node :=
  el "tr" [class "row"]
    [ el "td" [class "title"] [txt "Grid upgrade study"];
      el "td" [class "date"] [txt "2/3/2024"] ].

Definition row_untitled : node :=
  el "tr" [class "row"]
    [ el "td" [class "title"] [ el "a" [href "httpdocs/item.html"] [] ] ].

Definition row_no_title_cell : node :=
  el "tr" [class "row"] [ el "td" [class "date"] [txt "3/4/2024"] ].

Definition sanjose_listing : node :=
  el "[document]" []
    [ el "table" [] [row_linked; row_unlinked; row_untitled; row_no_title_cell] ].

Definition article_link_first : node :=
  el "article" []
    [ el "a" [href "/news/1"] [txt "Read more"];
      el "h3" [] [txt "Data center load forecast"];
      el "time" [] [txt "May 5"] ].

Definition article_no_title : node :=
  el "article" [] [ el "p" [] [txt "New infrastructure for the grid"] ].

Definition svp_listing : node :=
  el "[document]" [] [article_link_first; article_no_title].

Definition sjce_listing : node :=
  el "[document]" []
    [ el "div" [class "news-item"]
        [ el "h2" [] [txt "Rate increase approved"];
          el "span" [class "date"] [txt "June 6"] ] ].

Definition ellipsis_text : str :=
  lit "The data center capacity will grow.. Then more follows here.".

Definition detail_page : node :=
  el "[document]" []
    [ el "script" [] [Text Script (lit "var capacity = 1;")];
      el "p" [] [Text NavigableString scenario_text] ].

Definition news_page : node :=
  el "[document]" [] [ el "p" [] [Text NavigableString ellipsis_text] ].

(** Nodes with strings of the other classes. *)
Definition row_script_title : node :=
  el "tr" [class "row"]
    [ el "td" [class "title"] [ el "script" [] [Text Script (lit "var t = 1;")] ] ].

Definition article_script_keyword : node :=
  el "article" []
    [ el "h3" [] [txt "Council news"];
      el "script" [] [Text Script (lit "var capacity = 1;")] ].

Definition template_page : node :=
  el "[document]" []
    [ el "p" [] [txt " "];
      el "template" []
        [ el "p" [] [Text TemplateString
                       (lit "Hidden capacity will grow 5 percent by next year.")] ] ].

Definition santaclara_listing : node :=
  el "[document]" []
    [ el "table" []
        [ el "tr" [class "row"]
            [ el "td" [class "title"] [txt "Cached data center item"] ] ] ].

Definition ok (soup : node) : Response := Reply 200 (Some soup).

Definition pages : list (str * Response) :=
  [ (lit "https://sanjose.legistar.com/Legislation.aspx", ok sanjose_listing);
    (lit "https://www.siliconvalleypower.com/home/components/news/news", ok svp_listing);
    (lit "https://sanjosecleanenergy.org", ok sjce_listing);
    (lit "https://sanjose.legistar.com/LegislationDetail.aspx?ID=1", ok detail_page);
    (lit "https://www.siliconvalleypower.com/news/1", ok news_page) ].

(** The world is the clock; the responses are those of a table, and a
    page that is not in the table is a failed request. *)
Definition serve (table : list (str * Response)) (r : Request) (w : nat)
  : Response * nat :=
  (match dict_get (req_url r) table with
   | Some p => p
   | None => RequestException
   end, w).

Definition http_get : Request -> nat -> Response * nat := serve pages.

Definition santaclara_url : str :=
  lit "https://santaclara.legistar.com/Legislation.aspx".


(** The same world, where the parser rejects the listing of santaclara. *)
Definition rejecting : Request -> nat -> Response * nat :=
  serve ((santaclara_url, Reply 200 None) :: pages).


(** The same world, where the listing of santaclara is answered with the
    status 503. *)
Definition unavailable : Request -> nat -> Response * nat :=
  serve ((santaclara_url, Reply 503 (Some santaclara_listing)) :: pages).

Definition now (w : nat) : str * nat := (lit "T" ++ repeat "+"%char w, S w).

(** Values named in the instances below. *)
Definition sanjose_base : str := lit "https://sanjose.legistar.com".

Definition scenario_claim : Claim :=
  mkClaim scenario_first (lit "https://sanjose.legistar.com/LegislationDetail.aspx?ID=1")
    (lit "Data center siting ordinance") (lit "T").


Definition ellipsis_first : str := lit "The data center capacity will grow.".
Definition ellipsis_second : str := lit "Then more follows here.".


Definition unlinked_title_cell : node :=
  el "td" [class "title"] [txt "Grid upgrade study"].

Definition unlinked_record : SourceRecord :=
  LegistarLegislation (lit "sanjose") (lit "Grid upgrade study") None
    (lit "2/3/2024") (lit "data center").

(** A world without network: every request fails. *)
Definition offline (r : Request) (w : nat) : Response * nat :=
  (RequestException, w).

(** Values named in the further instances. *)
Definition detail_url : str :=
  lit "https://sanjose.legistar.com/LegislationDetail.aspx?ID=1".

Definition svp_url : str :=
  lit "https://www.siliconvalleypower.com/home/components/news/news".

Definition detail_paragraph : node := el "p" [] [Text NavigableString scenario_text].

Definition svp_record : SourceRecord :=
  News (lit "svp") (lit "Read more")
    (Some (lit "https://www.siliconvalleypower.com/news/1")) (lit "May 5").

Definition sanjose_request : Request :=
  mkRequest (sanjose_base ++ lit "/Legislation.aspx")
    [(lit "Search", lit "data center"); (lit "FullText", lit "1")].

End TestWorld.

(** * Properties *)

(** ** The model on concrete inputs *)

Example re_split_example :
  re_split (lit ". . x.. y?  z. ") =
  [lit ""; lit ""; lit "x."; lit "y"; lit "z"; lit ""].
Proof. vm_compute. reflexivity. Qed.

Example re_split_no_whitespace :
  re_split (lit "3.5 MW?No!") = [lit "3.5 MW?No!"].
Proof. vm_compute. reflexivity. Qed.

Example strip_example : strip (lit "  a b  ") = lit "a b".
Proof. vm_compute. reflexivity. Qed.

Example lower_example : lower (lit "AbC Z[@") = lit "abc z[@".
Proof. vm_compute. reflexivity. Qed.

Example split_head_example :
  split_head (lit "/home") (lit "https://sanjosecleanenergy.org") =
  lit "https://sanjosecleanenergy.org".
Proof. vm_compute. reflexivity. Qed.

Example get_text_strip_example :
  get_text_strip []
    (TestWorld.el "td" [] [TestWorld.txt " Item "; TestWorld.el "b" [] [TestWorld.txt " 7"];
                           TestWorld.txt "   "]) = lit "Item7".
Proof. vm_compute. reflexivity. Qed.

Example extract_text_example :
  fst (extract_text_from_url TestWorld.http_get
         (lit "https://sanjose.legistar.com/LegislationDetail.aspx?ID=1") 0) =
  Returns (Some scenario_text).
Proof. vm_compute. reflexivity. Qed.

(** The text of a [script] is no text of the cell around it, and is the
    text of the [script] itself. *)
Example script_is_no_title :
  legistar_row (lit "https://sanjose.legistar.com") (lit "sanjose")
    (lit "data center") TestWorld.row_script_title =
  Emitted (LegistarLegislation (lit "sanjose") [] None (lit "N/A") (lit "data center")) /\
  get_text (TestWorld.el "script" [] [Text Script (lit "var t = 1;")]) = lit "var t = 1;".
Proof. vm_compute. split; reflexivity. Qed.

(** A keyword in a [script] does not make a block relevant. *)
Example script_is_no_keyword :
  news_article (lit "svp") TestWorld.article_script_keyword = Skipped.
Proof. vm_compute. reflexivity. Qed.

(** The text of a [template] is no text of the page. *)
Example template_is_no_text :
  fst (extract_text_from_url
         (TestWorld.serve [(lit "u", TestWorld.ok TestWorld.template_page)]) (lit "u") 0) =
  Returns None.
Proof. vm_compute. reflexivity. Qed.

(** The pages of the test world have the string classes a parser gives. *)
Example test_pages_as_parsed :
  forallb (classes_as_parsed NavigableString)
    [TestWorld.sanjose_listing; TestWorld.svp_listing; TestWorld.sjce_listing;
     TestWorld.detail_page; TestWorld.news_page; TestWorld.template_page;
     TestWorld.santaclara_listing; TestWorld.row_script_title;
     TestWorld.article_script_keyword] = true.
Proof. vm_compute. reflexivity. Qed.

(** A status from 400 to 599 is a failed request, whatever the content;
    any other status is not. *)
Example fetched_of_examples :
  fetched_of (Reply 404 None) = RequestFailed /\
  fetched_of (Reply 503 (Some TestWorld.news_page)) = RequestFailed /\
  fetched_of (Reply 300 (Some TestWorld.news_page)) = Parsed TestWorld.news_page /\
  fetched_of (Reply 200 None) = Rejected.
Proof. vm_compute. repeat split. Qed.

(** The run on the test world: five sources, of which three have a URL
    and two of these a page; two Claims. *)
Example run_on_test_world :
  exists report,
    fst (run_full_scrape TestWorld.http_get TestWorld.now 0) = Returns report /\
    map source_title_of (sources report) =
      [lit "Data center siting ordinance"; lit "Grid upgrade study"; lit "";
       lit "Read more"; lit "Rate increase approved"] /\
    map source_url_of (sources report) =
      [Some (lit "https://sanjose.legistar.com/LegislationDetail.aspx?ID=1");
       None; Some (lit "httpdocs/item.html");
       Some (lit "https://www.siliconvalleypower.com/news/1"); None] /\
    map text (claims report) = [scenario_first; TestWorld.ellipsis_first] /\
    map extracted_at (claims report) = [lit "T"; lit "T+"] /\
    scraped_at report = lit "T++" /\
    total_sources report = 5 /\ total_claims report = 2.
Proof. eexists. split; [vm_compute; reflexivity|]. vm_compute. repeat split. Qed.

(** ** Strings *)

Lemma str_eqb_eq (a b : str) : str_eqb a b = true <-> a = b.
Proof.
  unfold str_eqb. destruct (list_eq_dec ascii_dec a b); split; congruence.
Qed.

Lemma startswith_iff (s p : str) :
  startswith s p = true <-> exists r, s = p ++ r.
Proof.
  revert s. induction p as [|a p IH]; intros s; simpl.
  - split; [intros _; now exists s | reflexivity].
  - destruct s as [|b s].
    + split; [discriminate | intros [r H]; discriminate].
    + rewrite andb_true_iff, Ascii.eqb_eq, IH. split.
      * intros [-> [r ->]]. now exists r.
      * intros [r H]. injection H as -> ->. split; eauto.
Qed.

Lemma contains_iff (sub s : str) :
  contains sub s = true <-> exists pre post, s = pre ++ sub ++ post.
Proof.
  induction s as [|c s IH]; simpl.
  - rewrite orb_false_r, startswith_iff. split.
    + intros [r H]. now exists [], r.
    + intros [pre [post H]]. destruct pre; [now exists post | discriminate].
  - rewrite orb_true_iff, startswith_iff, IH. split.
    + intros [[r H] | [pre [post H]]].
      * now exists [], r.
      * exists (c :: pre), post. now rewrite H.
    + intros [pre [post H]]. destruct pre as [|x pre].
      * left. now exists post.
      * right. injection H as _ H. now exists pre, post.
Qed.

Lemma existsb_contains_iff (l : list str) (s : str) :
  existsb (fun x => contains x s) l = true <->
  exists x pre post, In x l /\ s = pre ++ x ++ post.
Proof.
  rewrite existsb_exists. split.
  - intros [x [Hin H]]. apply contains_iff in H as [pre [post H]]. eauto 6.
  - intros [x [pre [post [Hin H]]]]. exists x. split; [assumption|].
    apply contains_iff. eauto.
Qed.

Lemma lspaces_lstrip (s : str) : s = lspaces s ++ lstrip s.
Proof.
  induction s as [|c s IH]; simpl; [reflexivity|].
  destruct (isspace c); simpl; congruence.
Qed.

Lemma lspaces_spaces (s : str) : forallb isspace (lspaces s) = true.
Proof.
  induction s as [|c s IH]; simpl; [reflexivity|].
  destruct (isspace c) eqn:E; simpl; [now rewrite E|reflexivity].
Qed.

Lemma lstrip_head (s : str) : head_isspace (lstrip s) = false.
Proof.
  induction s as [|c s IH]; simpl; [reflexivity|].
  destruct (isspace c) eqn:E; simpl; congruence.
Qed.

Lemma lstrip_id (s : str) : head_isspace s = false -> lstrip s = s.
Proof. destruct s as [|c s]; simpl; [reflexivity|]. now intros ->. Qed.

Lemma lstrip_length (s : str) : length (lstrip s) <= length s.
Proof.
  induction s as [|c s IH]; simpl; [lia|]. destruct (isspace c); simpl; lia.
Qed.

Lemma lstrip_app_nonspace (s : str) (c : ascii) :
  isspace c = false -> lstrip (s ++ [c]) = lstrip s ++ [c].
Proof.
  intros Hc. induction s as [|x s IH]; simpl.
  - now rewrite Hc.
  - destruct (isspace x); [assumption | reflexivity].
Qed.

Lemma lstrip_last_nonspace (s : str) (c : ascii) :
  isspace c = false -> exists q, lstrip (s ++ [c]) = q ++ [c].
Proof. intros Hc. rewrite lstrip_app_nonspace by assumption. eauto. Qed.

Lemma rstrip_head (s : str) :
  head_isspace s = false -> head_isspace (rstrip s) = false.
Proof.
  unfold rstrip. intros H. destruct s as [|c s]; [reflexivity|].
  simpl in H. simpl rev. rewrite lstrip_app_nonspace by assumption.
  rewrite rev_app_distr. simpl. assumption.
Qed.

Lemma strip_trimmed (s : str) : trimmed (strip s).
Proof.
  unfold trimmed, strip. split.
  - apply rstrip_head, lstrip_head.
  - unfold rstrip. rewrite rev_involutive. apply lstrip_head.
Qed.

Lemma trimmed_strip (s : str) : trimmed s -> strip s = s.
Proof.
  intros [H1 H2]. unfold strip, rstrip.
  rewrite (lstrip_id s H1), (lstrip_id _ H2). apply rev_involutive.
Qed.

Lemma strip_idem (s : str) : strip (strip s) = strip s.
Proof. apply trimmed_strip, strip_trimmed. Qed.

(** Stripping keeps a last character that is no whitespace. *)
Lemma strip_last_nonspace (s : str) (c : ascii) :
  isspace c = false -> exists q, strip (s ++ [c]) = q ++ [c].
Proof.
  intros Hc. unfold strip, rstrip.
  rewrite lstrip_app_nonspace by assumption.
  rewrite rev_app_distr. simpl. rewrite Hc. simpl.
  exists (lstrip s). now rewrite rev_involutive.
Qed.

Lemma terminator_not_space (c : ascii) :
  is_terminator c = true -> isspace c = false.
Proof.
  unfold is_terminator, isspace.
  destruct (code c =? 46)%N eqn:E1; [apply N.eqb_eq in E1; now rewrite E1|].
  destruct (code c =? 33)%N eqn:E2; [apply N.eqb_eq in E2; now rewrite E2|].
  destruct (code c =? 63)%N eqn:E3; [apply N.eqb_eq in E3; now rewrite E3|].
  discriminate.
Qed.

(** ** Loops *)

Section Loops.

Variable W : Type.
Variables A B : Type.
Variable body : A -> W -> list B * W.

Lemma for_extend_each (xs : list A) (acc : list B) (w : W) :
  for_extend xs body acc w =
  (acc ++ concat (fst (each body xs w)), snd (each body xs w)).
Proof.
  revert acc w. induction xs as [|x xs IH]; intros acc w; simpl.
  - unfold ret. now rewrite app_nil_r.
  - unfold bind. destruct (body x w) as [ys w1].
    rewrite IH. destruct (each body xs w1) as [yss w2]. simpl.
    now rewrite app_assoc.
Qed.

Lemma each_length (xs : list A) (w : W) :
  length (fst (each body xs w)) = length xs.
Proof.
  revert w. induction xs as [|x xs IH]; intros w; simpl; [reflexivity|].
  destruct (body x w) as [ys w1]. specialize (IH w1).
  destruct (each body xs w1) as [yss w2]. simpl in *. now rewrite IH.
Qed.

(** Every result of the loop comes from one turn of its body. *)
Lemma each_In (xs : list A) (w : W) (ys : list B) :
  In ys (fst (each body xs w)) ->
  exists x w1, In x xs /\ ys = fst (body x w1).
Proof.
  revert w. induction xs as [|x xs IH]; intros w; simpl; [tauto|].
  destruct (body x w) as [y w1] eqn:E. specialize (IH w1).
  destruct (each body xs w1) as [yss w2]. simpl in *.
  intros [<- | H].
  - exists x, w. rewrite E. auto.
  - destruct (IH H) as [x' [w' [Hin Heq]]]. eauto.
Qed.

End Loops.

Section RaisingLoops.

Variable W : Type.
Variables A B : Type.
Variable body : A -> W -> outcome (list B) * W.

Lemma for_extend_E_each (xs : list A) (acc : list B) (w : W) :
  for_extend_E xs body acc w =
  match each_E body xs w with
  | (Returns yss, w') => (Returns (acc ++ concat yss), w')
  | (Raises e, w') => (Raises e, w')
  end.
Proof.
  revert acc w. induction xs as [|x xs IH]; intros acc w; simpl.
  - unfold ret_E. now rewrite app_nil_r.
  - unfold bind_E. destruct (body x w) as [[ys | e] w1]; [|reflexivity].
    rewrite IH. destruct (each_E body xs w1) as [[yss | e] w2]; [|reflexivity].
    simpl. now rewrite app_assoc.
Qed.

End RaisingLoops.

Section RaisingEach.

Variable W : Type.
Variables A B : Type.
Variable body : A -> W -> outcome B * W.


Lemma each_E_app (xs1 xs2 : list A) (w : W) (ys : list B) :
  fst (each_E body (xs1 ++ xs2) w) = Returns ys ->
  exists ys1 ys2,
    ys = ys1 ++ ys2 /\
    fst (each_E body xs1 w) = Returns ys1 /\
    fst (each_E body xs2 (snd (each_E body xs1 w))) = Returns ys2 /\
    snd (each_E body (xs1 ++ xs2) w) =
      snd (each_E body xs2 (snd (each_E body xs1 w))).
Proof.
  revert w ys. induction xs1 as [|x xs1 IH]; intros w ys; simpl.
  - intros H. exists [], ys. auto.
  - destruct (body x w) as [[y | e] w1]; [|discriminate].
    specialize (IH w1).
    destruct (each_E body (xs1 ++ xs2) w1) as [[ys' | e] w2] eqn:E;
      [|discriminate].
    simpl. intros [= <-].
    destruct (IH ys' eq_refl) as [ys1 [ys2 [-> [H1 [H2 H3]]]]].
    destruct (each_E body xs1 w1) as [[zs | e] w3]; [|discriminate].
    simpl in *. injection H1 as ->.
    exists (y :: ys1), ys2. auto.
Qed.

(** Every result of a loop that returns is that of its body on one
    element, in the world the turns before have left. *)
Lemma each_E_In (xs : list A) (w : W) (ys : list B) (y : B) :
  fst (each_E body xs w) = Returns ys -> In y ys ->
  exists pre x post,
    xs = pre ++ x :: post /\
    fst (body x (snd (each_E body pre w))) = Returns y.
Proof.
  revert w ys. induction xs as [|x xs IH]; intros w ys; simpl.
  - intros [= <-] [].
  - destruct (body x w) as [[y0 | e] w1] eqn:Eb; [|discriminate].
    specialize (IH w1).
    destruct (each_E body xs w1) as [[ys' | e] w2] eqn:E; [|discriminate].
    simpl. intros [= <-] [<- | Hin].
    + exists [], x, xs. simpl. rewrite Eb. auto.
    + destruct (IH ys' eq_refl Hin) as [pre [x' [post [-> Hy]]]].
      exists (x :: pre), x', post. simpl. rewrite Eb.
      destruct (each_E body pre w1) as [[zs | e] w3]; simpl in *; auto.
Qed.

(** The [i]-th result of a loop that returns is that of its body on the
    [i]-th element, in the world the turns before have left. *)
Lemma each_E_nth (xs : list A) (w : W) (ys : list B) (i : nat) (x : A) :
  fst (each_E body xs w) = Returns ys ->
  nth_error xs i = Some x ->
  exists y,
    fst (body x (snd (each_E body (firstn i xs) w))) = Returns y /\
    nth_error ys i = Some y.
Proof.
  revert w ys i. induction xs as [|x0 xs IH]; intros w ys i.
  - destruct i; discriminate.
  - simpl. destruct (body x0 w) as [[y0 | e] w1] eqn:Eb; [|discriminate].
    specialize (IH w1).
    destruct (each_E body xs w1) as [[ys' | e] w2] eqn:E; [|discriminate].
    simpl. intros [= <-]. destruct i as [|i]; simpl.
    + intros [= <-]. exists y0. rewrite Eb. auto.
    + intros Hx. destruct (IH ys' i eq_refl Hx) as [y [Hy Hn]].
      exists y. rewrite Eb.
      destruct (each_E body (firstn i xs) w1) as [[zs | e] w3]; simpl in *; auto.
Qed.

(** A loop whose every turn returns, returns. *)
Lemma each_E_returns (xs : list A) (w : W) :
  (forall x w', exists y, fst (body x w') = Returns y) ->
  exists ys, fst (each_E body xs w) = Returns ys.
Proof.
  intros H. revert w. induction xs as [|x xs IH]; intros w; simpl.
  - now exists [].
  - destruct (H x w) as [y Hy]. destruct (body x w) as [[y' | e] w1];
      [|discriminate].
    destruct (IH w1) as [ys Hys].
    destruct (each_E body xs w1) as [[ys' | e] w2]; [|discriminate].
    now exists (y' :: ys').
Qed.

End RaisingEach.

(** ** The claim extractor *)

Section ClaimExtractor.

Variable W : Type.
Variable now : W -> str * W.

(** The texts of the Claims are the stripped sentences that pass the
    guards, in sentence order. *)
Lemma extract_claims_texts (t url title : str) (w : W) :
  map text (fst (extract_claims_from_text now t url title w)) =
  filter claim_sentence (map strip (re_split t)).
Proof.
  unfold extract_claims_from_text.
  generalize (re_split t) as sentences.
  intros sentences. rewrite for_extend_each. simpl.
  revert w. induction sentences as [|s ss IH]; intros w; simpl; [reflexivity|].
  unfold sentence_claims at 1.
  destruct (claim_sentence (strip s)) eqn:E; unfold bind, ret.
  - destruct (now w) as [stamp w1]. specialize (IH w1).
    destruct (each _ ss w1) as [yss w2]. simpl in *. now rewrite IH.
  - specialize (IH w).
    destruct (each _ ss w) as [yss w2]. simpl in *. assumption.
Qed.

Lemma extract_claims_attribution (t url title : str) (w : W) (c : Claim) :
  In c (fst (extract_claims_from_text now t url title w)) ->
  source_url c = url /\ source_title c = title.
Proof.
  unfold extract_claims_from_text. rewrite for_extend_each. simpl.
  rewrite in_concat. intros [ys [Hys Hc]].
  apply each_In in Hys as [s [w1 [_ ->]]]. unfold sentence_claims in Hc.
  destruct (claim_sentence (strip s)); unfold bind, ret in Hc.
  - destruct (now w1). simpl in Hc. destruct Hc as [<- | []]. auto.
  - destruct Hc.
Qed.

Lemma claim_sentence_iff (s : str) :
  claim_sentence s = true <->
  20 <= length s /\
  (exists kw, In kw keywords /\ occurs_in kw (lower s)) /\
  ((exists ds, digit_sequence ds /\ occurs_in ds s) \/
   (exists word, In word strong_words /\ occurs_in word (lower s))).
Proof.
  unfold claim_sentence, re_search_digits, occurs_in, digit_sequence.
  rewrite !andb_true_iff, orb_true_iff, Nat.leb_le, !existsb_contains_iff.
  rewrite existsb_exists.
  split.
  - intros [[H1 [kw [pre [post [Hk Hs]]]]] H3]. split; [assumption|]. split.
    + eauto.
    + destruct H3 as [[d [Hin Hd]] | [wd [pre' [post' [Hw Hs']]]]].
      * left. apply in_split in Hin as [l1 [l2 ->]].
        exists [d]. split.
        -- split; [discriminate | simpl; now rewrite Hd].
        -- now exists l1, l2.
      * right. eauto.
  - intros [H1 [[kw [Hk [pre [post Hs]]]] H3]]. split; [split|].
    + assumption.
    + eauto 6.
    + destruct H3 as [[ds [[Hne Hds] [pre' [post' Hs']]]] | [wd [Hw [pre' [post' Hs']]]]].
      * left. destruct ds as [|d ds]; [congruence|].
        simpl in Hds. apply andb_true_iff in Hds as [Hd _].
        exists d. split; [|assumption]. rewrite Hs'.
        apply in_or_app. right. left. reflexivity.
      * right. eauto 6.
Qed.

(** C1. Every Claim that [extract_claims_from_text] emits, for any text,
    source URL and source title, has as its text a stripped sentence of
    the segmentation; that text is trimmed and at least 20 characters
    long, its lowercased form contains one of the ten keyword phrases, and
    it contains a digit sequence or its lowercased form contains one of
    the words must, require, will, shall, project. *)
Theorem extract_claims_invariant (t url title : str) (w : W) (c : Claim) :
  In c (fst (extract_claims_from_text now t url title w)) ->
  (exists sentence, In sentence (re_split t) /\ text c = strip sentence) /\
  trimmed (text c) /\
  20 <= length (text c) /\
  length keywords = 10 /\
  (exists kw, In kw keywords /\ occurs_in kw (lower (text c))) /\
  ((exists ds, digit_sequence ds /\ occurs_in ds (text c)) \/
   (exists word, In word strong_words /\ occurs_in word (lower (text c)))).
Proof.
  intros Hc.
  apply (in_map text) in Hc. rewrite extract_claims_texts in Hc.
  apply filter_In in Hc as [Hin Hguard].
  apply in_map_iff in Hin as [sentence [Hs Hin]].
  apply claim_sentence_iff in Hguard as [Hlen [Hkw Hev]].
  split; [eauto|]. split; [rewrite <- Hs; apply strip_trimmed|].
  repeat split; assumption.
Qed.

End ClaimExtractor.

Section Scenario.

Variable W : Type.
Variable now : W -> str * W.

(** C2. On the text "The data center will require 50 MW of new capacity.
    This sentence has no keyword at all and is long." the extractor returns
    exactly one Claim.  Its text is the first sentence (as segmented,
    without the full stop that ended it), which contains "data center",
    "will" and "50"; the second sentence contains none of the keywords and
    gives no Claim. *)
Theorem scenario_one_claim (url title : str) (w : W) :
  fst (extract_claims_from_text now scenario_text url title w) =
    [mkClaim scenario_first url title (fst (now w))] /\
  re_split scenario_text = [scenario_first; scenario_second] /\
  scenario_text = scenario_first ++ lit ". " ++ scenario_second /\
  occurs_in (lit "data center") scenario_first /\
  occurs_in (lit "will") scenario_first /\
  occurs_in (lit "50") scenario_first /\
  (forall kw, In kw keywords -> ~ occurs_in kw (lower (strip scenario_second))).
Proof.
  assert (Hsplit : re_split scenario_text = [scenario_first; scenario_second])
    by (vm_compute; reflexivity).
  assert (H1 : claim_sentence (strip scenario_first) = true)
    by (vm_compute; reflexivity).
  assert (H2 : existsb (fun kw => contains kw (lower (strip scenario_second)))
                 keywords = false) by (vm_compute; reflexivity).
  assert (H2' : claim_sentence (strip scenario_second) = false).
  { unfold claim_sentence. rewrite H2. now rewrite andb_false_r. }
  assert (Hstrip : strip scenario_first = scenario_first)
    by (vm_compute; reflexivity).
  split; [|split; [assumption|split; [reflexivity|]]].
  - unfold extract_claims_from_text. rewrite Hsplit.
    cbn [for_extend]. unfold sentence_claims, bind, ret. rewrite H1, H2', Hstrip.
    destruct (now w) as [stamp w1]. reflexivity.
  - repeat split.
    + apply contains_iff. vm_compute. reflexivity.
    + apply contains_iff. vm_compute. reflexivity.
    + apply contains_iff. vm_compute. reflexivity.
    + intros kw Hin Hocc.
      assert (existsb (fun kw => contains kw (lower (strip scenario_second)))
                keywords = true); [|congruence].
      apply existsb_exists. exists kw. split; [assumption|].
      now apply contains_iff.
Qed.

End Scenario.

(** ** Segmentation *)

Lemma re_split_from_true (s : str) :
  re_split_from true s = re_split (lstrip s).
Proof.
  unfold re_split. induction s as [|c s IH]; [reflexivity|].
  simpl. destruct (isspace c) eqn:E; simpl; [assumption|].
  rewrite ?E. reflexivity.
Qed.

Lemma separators_from_true (s : str) :
  separators_from true s = separators (lstrip s).
Proof.
  unfold separators. induction s as [|c s IH]; [reflexivity|].
  simpl. destruct (isspace c) eqn:E; simpl; [assumption|].
  rewrite ?E. reflexivity.
Qed.

(** The equations of [re.split]: at a match the piece ends and the
    segmentation resumes after the whitespace; elsewhere the character
    joins the current piece. *)
Lemma re_split_cons (c : ascii) (r : str) :
  re_split (c :: r) =
  if is_terminator c && head_isspace r then [] :: re_split (lstrip r)
  else cons_head c (re_split r).
Proof.
  unfold re_split at 1. simpl.
  destruct (is_terminator c && head_isspace r); [|reflexivity].
  now rewrite re_split_from_true.
Qed.

(** The same, by the match of the pattern at the start of the text. *)
Lemma re_split_match (s : str) :
  re_split s =
  match s with
  | [] => [[]]
  | c :: r =>
      match match_sep s with
      | Some rest => [] :: re_split rest
      | None => cons_head c (re_split r)
      end
  end.
Proof.
  destruct s as [|c r]; [reflexivity|]. rewrite re_split_cons.
  unfold match_sep. now destruct (is_terminator c && head_isspace r).
Qed.

Lemma separators_cons (c : ascii) (r : str) :
  separators (c :: r) =
  if is_terminator c && head_isspace r
  then (c :: lspaces r) :: separators (lstrip r)
  else separators r.
Proof.
  unfold separators at 1. simpl.
  destruct (is_terminator c && head_isspace r); [|reflexivity].
  now rewrite separators_from_true.
Qed.

Lemma re_split_nonempty (s : str) : re_split s <> [].
Proof.
  destruct s as [|c r]; [discriminate|]. rewrite re_split_cons.
  destruct (is_terminator c && head_isspace r); [discriminate|].
  destruct (re_split r); discriminate.
Qed.

Lemma lspaces_nonempty (s : str) : head_isspace s = true -> lspaces s <> [].
Proof. destruct s as [|c s]; simpl; [discriminate|]. now intros ->. Qed.

(** Induction on a text along the segmentation. *)
Lemma split_ind (P : str -> Prop) :
  P [] ->
  (forall c r, is_terminator c = true -> head_isspace r = true ->
               P (lstrip r) -> P (c :: r)) ->
  (forall c r, is_terminator c && head_isspace r = false ->
               P r -> P (c :: r)) ->
  forall s, P s.
Proof.
  intros Hnil Hmatch Hchar s.
  assert (H : forall n s, length s <= n -> P s).
  { induction n as [|n IH]; intros s' Hlen.
    - destruct s'; [assumption | simpl in Hlen; lia].
    - destruct s' as [|c r]; [assumption|]. simpl in Hlen.
      destruct (is_terminator c && head_isspace r) eqn:E.
      + apply andb_true_iff in E as [E1 E2]. apply Hmatch; try assumption.
        apply IH. pose proof (lstrip_length r). lia.
      + apply Hchar; [assumption|]. apply IH. lia. }
  apply (H (length s)). lia.
Qed.

(** The text is its pieces with the separators between them: what the
    segmentation consumes is a terminator with the whitespace after it. *)
Lemma split_decomposition (t : str) :
  length (re_split t) = S (length (separators t)) /\
  Forall is_separator (separators t) /\
  interleave (re_split t) (separators t) = t.
Proof.
  induction t as [| c r Hc Hr IH | c r E IH] using split_ind.
  - repeat split. constructor.
  - destruct IH as [IH1 [IH2 IH3]].
    rewrite re_split_cons, separators_cons, Hc, Hr. simpl.
    split; [now rewrite IH1|]. split.
    + constructor; [|assumption].
      exists c, (lspaces r). repeat split; try assumption.
      * now apply lspaces_nonempty.
      * apply lspaces_spaces.
    + rewrite IH3. f_equal. symmetry. apply lspaces_lstrip.
  - destruct IH as [IH1 [IH2 IH3]].
    rewrite re_split_cons, separators_cons, E.
    destruct (re_split r) as [|p ps] eqn:Ep; [discriminate|]. simpl.
    split; [assumption|]. split; [assumption|].
    simpl in IH3. destruct (separators r); simpl; now rewrite <- IH3.
Qed.

Lemma interleave_split (ps1 : list str) (p : str) (ps2 seps : list str) :
  ps2 <> [] ->
  length (ps1 ++ p :: ps2) = S (length seps) ->
  exists seps1 sep seps2,
    seps = seps1 ++ sep :: seps2 /\
    length ps2 = S (length seps2) /\
    interleave (ps1 ++ p :: ps2) seps =
      terminated ps1 seps1 ++ p ++ sep ++ interleave ps2 seps2.
Proof.
  intros Hne. revert seps. induction ps1 as [|p1 ps1 IH]; intros seps Hlen.
  - destruct seps as [|sep seps]; simpl in Hlen.
    + destruct ps2; [congruence | simpl in Hlen; lia].
    + exists [], sep, seps. simpl. repeat split. lia.
  - destruct seps as [|s1 seps]; simpl in Hlen.
    + rewrite length_app in Hlen. simpl in Hlen. lia.
    + destruct (IH seps) as [seps1 [sep [seps2 [-> [Hl Hi]]]]]; [lia|].
      exists (s1 :: seps1), sep, seps2. simpl. rewrite Hi.
      repeat split; [assumption|]. now rewrite <- !app_assoc.
Qed.

(** A piece that is not the last is followed in the text by the separator
    that ended it. *)
Lemma nonfinal_piece_followed (t : str) (ps1 : list str) (p : str) (ps2 : list str) :
  re_split t = ps1 ++ p :: ps2 -> ps2 <> [] ->
  exists pre sep post, is_separator sep /\ t = pre ++ p ++ sep ++ post.
Proof.
  intros Hs Hne.
  destruct (split_decomposition t) as [Hlen [Hsep Hint]].
  rewrite Hs in Hlen, Hint.
  destruct (@interleave_split ps1 p ps2 _ Hne Hlen) as [seps1 [sep [seps2 [Hseps [_ Hi]]]]].
  exists (terminated ps1 seps1), sep, (interleave ps2 seps2).
  split.
  - rewrite Hseps in Hsep. apply Forall_app in Hsep as [_ Hsep].
    now inversion Hsep.
  - rewrite <- Hint. exact Hi.
Qed.

Lemma piece_prefix (r p : str) (ps : list str) :
  re_split r = p :: ps -> exists rest, r = p ++ rest.
Proof.
  intros Hs. destruct (split_decomposition r) as [_ [_ Hint]].
  rewrite Hs in Hint. simpl in Hint.
  destruct (separators r) as [|s seps].
  - exists []. now rewrite app_nil_r.
  - now exists (s ++ interleave ps seps).
Qed.

Lemma not_has_match_nil : ~ has_match [].
Proof. intros [pre [t [w [post [H _]]]]]. destruct pre; discriminate. Qed.

(** No piece contains a terminator followed by whitespace: the leftmost
    one would have ended it. *)
Lemma pieces_no_match (t p : str) : In p (re_split t) -> ~ has_match p.
Proof.
  revert p. induction t as [| c r Hc Hr IH | c r E IH] using split_ind; intros p.
  - intros [<- | []]. apply not_has_match_nil.
  - rewrite re_split_cons, Hc, Hr. simpl.
    intros [<- | H]; [apply not_has_match_nil | now apply IH].
  - rewrite re_split_cons, E.
    destruct (re_split r) as [|p0 ps0] eqn:Ep; [now destruct (re_split_nonempty r)|].
    simpl. intros [<- | H]; [|apply IH; now right].
    intros [pre [x [w [post [Heq [Hx Hw]]]]]].
    destruct pre as [|y pre]; simpl in Heq; injection Heq as -> ->.
    + destruct (piece_prefix _ Ep) as [rest ->]. simpl in E.
      rewrite Hx, Hw in E. discriminate.
    + apply (IH (pre ++ x :: w :: post)); [now left|].
      now exists pre, x, w, post.
Qed.

Lemma forallb_rev {A} (f : A -> bool) (l : list A) :
  forallb f l = true -> forallb f (rev l) = true.
Proof.
  rewrite !forallb_forall. intros H x Hx. apply H. now apply in_rev.
Qed.

(** [strip] removes whitespace, and nothing else, at both ends. *)
Lemma strip_decompose (p : str) :
  exists lead trail,
    p = lead ++ strip p ++ trail /\
    forallb isspace lead = true /\ forallb isspace trail = true.
Proof.
  exists (lspaces p), (rev (lspaces (rev (lstrip p)))).
  split; [|split].
  - unfold strip, rstrip. rewrite <- rev_app_distr, <- lspaces_lstrip.
    rewrite rev_involutive. apply lspaces_lstrip.
  - apply lspaces_spaces.
  - apply forallb_rev, lspaces_spaces.
Qed.

(** In a piece, a terminator that ends the stripped text ends the piece. *)
Lemma strip_terminator_ends_piece (p : str) (c : ascii) :
  ~ has_match p -> is_terminator c = true ->
  ends_with c (strip p) -> ends_with c p.
Proof.
  intros Hno Hc [q Hq].
  destruct (strip_decompose p) as [lead [trail [Hp [_ Htrail]]]].
  rewrite Hq in Hp. destruct trail as [|w trail].
  - exists (lead ++ q). rewrite Hp. now rewrite app_nil_r, app_assoc.
  - exfalso. apply Hno. simpl in Htrail. apply andb_true_iff in Htrail as [Hw _].
    exists (lead ++ q), c, w, trail. repeat split; try assumption.
    rewrite Hp. now rewrite <- !app_assoc.
Qed.

Lemma last_cons_head (c : ascii) (ps : list str) (x : ascii) :
  ps <> [] -> ends_with x (last ps []) -> ends_with x (last (cons_head c ps) []).
Proof.
  destruct ps as [|p ps]; [congruence|]. intros _. simpl.
  destruct ps as [|p' ps]; [|auto].
  intros [q ->]. now exists (c :: q).
Qed.

Lemma last_cons_nonempty {A} (a d : A) (l : list A) :
  l <> [] -> last (a :: l) d = last l d.
Proof. destruct l; [congruence | reflexivity]. Qed.

(** When the text ends with a terminator, so does its last piece. *)
Lemma final_piece_retains (t : str) (x : ascii) :
  is_terminator x = true -> ends_with x t ->
  ends_with x (last (re_split t) []).
Proof.
  intros Hx. induction t as [| c r Hc Hr IH | c r E IH] using split_ind.
  - intros [q H]. destruct q; discriminate.
  - intros [q H]. rewrite re_split_cons, Hc, Hr. cbn [andb].
    rewrite last_cons_nonempty by apply re_split_nonempty. apply IH.
    destruct q as [|y q]; simpl in H.
    + injection H as -> ->. discriminate.
    + injection H as -> ->. rewrite lstrip_app_nonspace
        by now apply terminator_not_space. now exists (lstrip q).
  - intros [q H]. rewrite re_split_cons, E.
    destruct q as [|y q]; simpl in H; injection H as -> ->.
    + simpl. now exists [].
    + apply last_cons_head; [apply re_split_nonempty|].
      apply IH. now exists q.
Qed.

Section Terminators.

Variable W : Type.
Variable now : W -> str * W.

Lemma sentence_claims_text (url title p : str) (w : W) (c : Claim) :
  In c (fst (sentence_claims now url title p w)) -> text c = strip p.
Proof.
  unfold sentence_claims. destruct (claim_sentence (strip p)); unfold bind, ret.
  - destruct (now w). simpl. now intros [<- | []].
  - intros [].
Qed.

(** C9, amended.  The segmentation consumes a terminator only together
    with the whitespace after it: the text is its pieces with these
    separators between them.  A Claim produced from a sentence that is
    not the last is the stripped piece, which stops before the terminator
    that ended it; it ends with a terminator character only when the piece
    does, that is when the consumed terminator directly follows another
    one.  When the text ends with a terminator, a Claim produced from the
    last sentence ends with that terminator. *)
Theorem segmentation_terminators (t url title : str) :
  (length (re_split t) = S (length (separators t)) /\
   Forall is_separator (separators t) /\
   interleave (re_split t) (separators t) = t) /\
  (forall w, fst (extract_claims_from_text now t url title w) =
             concat (fst (each (sentence_claims now url title) (re_split t) w))) /\
  (forall ps1 p ps2 w c,
     re_split t = ps1 ++ p :: ps2 -> ps2 <> [] ->
     In c (fst (sentence_claims now url title p w)) ->
     text c = strip p /\
     (exists pre sep post, is_separator sep /\ t = pre ++ p ++ sep ++ post) /\
     (forall x, is_terminator x = true -> ends_with x (text c) -> ends_with x p)) /\
  (forall x w c,
     is_terminator x = true -> ends_with x t ->
     In c (fst (sentence_claims now url title (last (re_split t) []) w)) ->
     ends_with x (text c)).
Proof.
  split; [apply split_decomposition|]. split; [|split].
  - intros w. unfold extract_claims_from_text. now rewrite for_extend_each.
  - intros ps1 p ps2 w c Hs Hne Hc.
    apply sentence_claims_text in Hc. split; [assumption|]. split.
    + eapply nonfinal_piece_followed; eassumption.
    + intros x Hx Hend. rewrite Hc in Hend.
      apply strip_terminator_ends_piece; try assumption.
      apply (pieces_no_match t). rewrite Hs. apply in_or_app. right. now left.
  - intros x w c Hx Hend Hc. apply sentence_claims_text in Hc. rewrite Hc.
    destruct (final_piece_retains Hx Hend) as [q ->].
    apply strip_last_nonspace. now apply terminator_not_space.
Qed.

End Terminators.

(** ** Listings *)

Lemma emitted_In {A} (l : list (item_result A)) (a : A) :
  In a (emitted l) <-> In (Emitted a) l.
Proof.
  induction l as [|x l IH]; simpl; [tauto|].
  destruct x; simpl; rewrite IH.
  - split; [auto | intros [H|H]; [discriminate | assumption]].
  - split; [auto | intros [H|H]; [discriminate | assumption]].
  - split; (intros [H|H]; [left; congruence | right; assumption]).
Qed.

Lemma emitted_map_In {A B} (f : A -> item_result B) (l : list A) (b : B) :
  In b (emitted (map f l)) <-> exists a, In a l /\ f a = Emitted b.
Proof.
  rewrite emitted_In, in_map_iff. split; intros [a [H1 H2]]; eauto.
Qed.





Lemma find_in_find_all (sel : selector) (n e : node) :
  find sel n = Some e -> In e (find_all sel n).
Proof.
  unfold find. destruct (find_all sel n); simpl; [discriminate|].
  intros [= ->]. now left.
Qed.

Lemma startswith_app (s p r : str) :
  startswith s p = true -> startswith (s ++ r) p = true.
Proof.
  rewrite !startswith_iff. intros [x ->]. exists (x ++ r). now rewrite app_assoc.
Qed.

Lemma startswith_trans (s p q : str) :
  startswith s p = true -> startswith p q = true -> startswith s q = true.
Proof.
  rewrite !startswith_iff. intros [x ->] [y ->]. exists (y ++ x).
  now rewrite app_assoc.
Qed.

Lemma absolute_startswith_http (u : str) :
  is_absolute_url u = true -> startswith u (lit "http") = true.
Proof.
  unfold is_absolute_url. rewrite orb_true_iff.
  intros [H | H]; eapply startswith_trans; try exact H; reflexivity.
Qed.

(** Every URL of the table is absolute. *)
Lemma base_urls_absolute (key base_url : str) :
  dict_get key base_urls = Some base_url -> is_absolute_url base_url = true.
Proof.
  unfold base_urls. simpl.
  repeat (match goal with
          | |- context [str_eqb ?a ?b] => destruct (str_eqb a b)
          end; [intros [= <-]; reflexivity|]).
  discriminate.
Qed.

Lemma news_prefix_values :
  news_prefix (lit "svp") = lit "https://www.siliconvalleypower.com" /\
  news_prefix (lit "sjce") = lit "https://sanjosecleanenergy.org".
Proof. split; vm_compute; reflexivity. Qed.

(** What [resolve_url] leaves of a link. *)
Lemma resolve_url_some (prefix : str) (v : option attr_value) (u : str) :
  resolve_url prefix v = Some (Some u) ->
  exists h, v = Some (AttrStr h) /\
            u = if startswith h (lit "http") then h else prefix ++ h.
Proof.
  destruct v as [[h | l] |]; unfold resolve_url; try discriminate.
  intros H. exists h. split; [reflexivity|].
  destruct (startswith h (lit "http")); cbn [negb] in H; congruence.
Qed.




(** The rows and blocks behind the records. *)
Lemma legistar_row_emitted (base_url city term : str) (row : node) (r : SourceRecord) :
  legistar_row base_url city term row = Emitted r ->
  exists title_cell url,
    find (by_name_class "td" "title") row = Some title_cell /\
    resolve_url base_url (link_href (find (by_name "a") title_cell)) = Some url /\
    r = LegistarLegislation city (get_text_strip [] title_cell) url
          match find (by_name_class "td" "date") row with
          | Some date_cell => get_text_strip [] date_cell
          | None => lit "N/A"
          end term.
Proof.
  unfold legistar_row.
  destruct (find (by_name_class "td" "title") row) as [cell|]; [|discriminate].
  destruct (resolve_url _ _) as [url|] eqn:E; [|discriminate].
  intros [= <-]. eauto.
Qed.

Lemma news_article_emitted (source : str) (article : node) (r : SourceRecord) :
  news_article source article = Emitted r ->
  exists title_elem url date_str,
    news_title_elem article = Some title_elem /\
    existsb (fun kw => contains kw (lower (get_text article))) keywords = true /\
    resolve_url (news_prefix source) (link_href (find (by_name "a") article)) = Some url /\
    r = News source (get_text_strip [] title_elem) url date_str.
Proof.
  unfold news_article.
  destruct (news_title_elem article) as [e|]; [|discriminate].
  destruct (existsb _ keywords) eqn:Ek; simpl; [|discriminate].
  destruct (resolve_url _ _) as [url|] eqn:E; [|discriminate].
  intros [= <-]. eauto 8.
Qed.

Lemma base_url_truthy (key base_url : str) :
  dict_get key base_urls = Some base_url -> truthy base_url = true.
Proof.
  intros Hb. apply base_urls_absolute, absolute_startswith_http in Hb.
  now destruct base_url.
Qed.

Lemma in_records {A} (o : outcome (list A)) (a : A) :
  In a (records o) <-> exists l, o = Returns l /\ In a l.
Proof.
  destruct o as [l | e]; simpl; split.
  - intros H. now exists l.
  - now intros [l' [[= <-] H]].
  - intros [].
  - intros [l [H _]]. discriminate.
Qed.

Section Adapters.

Variable W : Type.
Variable http_get : Request -> W -> Response * W.

(** The call of the register adapter for a city of the table: one
    request, and the rows of the page when there is one. *)
Lemma legistar_call (city term : str) (d : Z) (w : W) (base_url : str) :
  dict_get (city ++ lit "_legistar") base_urls = Some base_url ->
  let req := mkRequest (base_url ++ lit "/Legislation.aspx")
               [(lit "Search", term); (lit "FullText", lit "1")] in
  search_legistar_legislation http_get city term d w =
  (match fetched_of (fst (http_get req w)) with
   | RequestFailed => Returns []
   | Rejected => Raises ParserRejectedMarkup
   | Parsed soup =>
       Returns (emitted (map (legistar_row base_url city term)
                           (find_all (by_name_class "tr" "row") soup)))
   end, snd (http_get req w)).
Proof.
  intros Hb req. unfold search_legistar_legislation. rewrite Hb.
  rewrite (base_url_truthy _ Hb). cbn [negb]. unfold bind_E, lift, ret_E, raise.
  fold req. destruct (http_get req w) as [response w1]. cbn [fst snd].
  now destruct (fetched_of response).
Qed.

(** The call of the news adapter for svp or sjce. *)
Lemma news_call (source : str) (w : W) :
  str_eqb source (lit "svp") || str_eqb source (lit "sjce") = true ->
  let req := mkRequest (base_url_item (source ++ lit "_news")) [] in
  search_news_sources http_get source w =
  (match fetched_of (fst (http_get req w)) with
   | RequestFailed => Returns []
   | Rejected => Raises ParserRejectedMarkup
   | Parsed soup =>
       Returns (emitted (map (news_article source)
                           match find_all (by_name "article") soup with
                           | [] => find_all (by_name_class "div" "news-item") soup
                           | l => l
                           end))
   end, snd (http_get req w)).
Proof.
  intros Hs req. unfold search_news_sources. rewrite Hs.
  unfold bind_E, lift, ret_E, raise. fold req.
  destruct (http_get req w) as [response w1]. cbn [fst snd].
  now destruct (fetched_of response).
Qed.

(** A record of the register adapter comes from a row of the fetched
    listing. *)
Lemma legistar_results (city term : str) (d : Z) (w : W) (r : SourceRecord) :
  In r (records (fst (search_legistar_legislation http_get city term d w))) ->
  exists base_url soup row,
    dict_get (city ++ lit "_legistar") base_urls = Some base_url /\
    fetched_of
      (fst (http_get (mkRequest (base_url ++ lit "/Legislation.aspx")
                        [(lit "Search", term); (lit "FullText", lit "1")]) w))
      = Parsed soup /\
    In row (find_all (by_name_class "tr" "row") soup) /\
    legistar_row base_url city term row = Emitted r.
Proof.
  destruct (dict_get (city ++ lit "_legistar") base_urls) as [base_url|] eqn:Hb.
  - rewrite (legistar_call city term d w Hb). cbn [fst].
    destruct (fetched_of _) as [| |soup] eqn:E; cbn [records]; try (intros []).
    rewrite emitted_map_In. intros [row [Hrow Hr]].
    exists base_url, soup, row. auto.
  - unfold search_legistar_legislation. rewrite Hb. intros [].
Qed.

(** A record of the news adapter comes from a block of the fetched
    listing. *)
Lemma news_results (source : str) (w : W) (r : SourceRecord) :
  In r (records (fst (search_news_sources http_get source w))) ->
  (source = lit "svp" \/ source = lit "sjce") /\
  exists soup article,
    fetched_of
      (fst (http_get (mkRequest (base_url_item (source ++ lit "_news")) []) w))
      = Parsed soup /\
    In article (descendants soup) /\
    news_article source article = Emitted r.
Proof.
  destruct (str_eqb source (lit "svp") || str_eqb source (lit "sjce")) eqn:Es.
  - rewrite (news_call source w Es). cbn [fst].
    destruct (fetched_of _) as [| |soup] eqn:E; cbn [records]; try (intros []).
    rewrite emitted_map_In. intros [article [Hart Hr]]. split.
    + apply orb_true_iff in Es. rewrite !str_eqb_eq in Es. assumption.
    + exists soup, article. repeat split; try assumption.
      destruct (find_all (by_name "article") soup) eqn:Ea.
      * unfold find_all in Hart. apply filter_In in Hart. tauto.
      * rewrite <- Ea in Hart. unfold find_all in Hart.
        apply filter_In in Hart. tauto.
  - unfold search_news_sources. rewrite Es. intros [].
Qed.


(** C7. [search_legistar_legislation] gives the same records, and leaves
    the same world, for any two values of [days_back]: the look-back
    window has no effect. *)
Theorem days_back_has_no_effect (city search_term : str) (d1 d2 : Z) (w : W) :
  search_legistar_legislation http_get city search_term d1 w =
  search_legistar_legislation http_get city search_term d2 w.
Proof. reflexivity. Qed.


End Adapters.

(** ** Titles *)













Section Titles.

Variable W : Type.
Variable http_get : Request -> W -> Response * W.


End Titles.

(** ** The orchestrator *)

Lemma in_concat_nth {A} (ls : list (list A)) (i : nat) (l : list A) (a : A) :
  nth_error ls i = Some l -> In a l -> In a (concat ls).
Proof.
  intros H Ha. apply in_concat. exists l. split; [|assumption].
  eapply nth_error_In; eassumption.
Qed.

Lemma fetched_accepted (response : Response) :
  fetched_of response <> Rejected ->
  fetched_of response = RequestFailed \/ exists soup, fetched_of response = Parsed soup.
Proof.
  destruct (fetched_of response) as [| |soup]; intros H;
    [now left | congruence | right; now exists soup].
Qed.

Section Orchestrator.

Variable W : Type.
Variable http_get : Request -> W -> Response * W.
Variable now : W -> str * W.

(** The call of the text extractor: one request, and the text of the
    page when there is one. *)
Lemma extract_text_call (url : str) (w : W) :
  extract_text_from_url http_get url w =
  (match fetched_of (fst (http_get (mkRequest url []) w)) with
   | RequestFailed => Returns None
   | Rejected => Raises ParserRejectedMarkup
   | Parsed soup =>
       let t := get_text_strip ["010"%char]
                  (decompose_all [lit "script"; lit "style"] soup) in
       Returns (if truthy t then Some t else None)
   end, snd (http_get (mkRequest url []) w)).
Proof.
  unfold extract_text_from_url, bind_E, lift, ret_E, raise.
  destruct (http_get (mkRequest url []) w) as [response w1]. cbn [fst snd].
  now destruct (fetched_of response).
Qed.

(** The run, step by step: the adapters over the origins, the claims over
    the sources, the time stamp; an exception of a step is that of the
    run. *)
Lemma run_full_scrape_eq (w : W) :
  run_full_scrape http_get now w =
  match each_E (search_origin http_get) origins w with
  | (Raises e, w4) => (Raises e, w4)
  | (Returns lists, w4) =>
      match each_E (source_claims http_get now) (concat lists) w4 with
      | (Raises e, w5) => (Raises e, w5)
      | (Returns cls, w5) =>
          let (t, w6) := now w5 in
          (Returns (mkReport (concat lists) (concat cls) t
                      (length (concat lists)) (length (concat cls))), w6)
      end
  end.
Proof.
  unfold run_full_scrape, origins. cbn [for_extend_E each_E search_origin].
  unfold bind_E, ret_E, lift.
  destruct (search_legistar_legislation http_get (lit "sanjose") _ _ w)
    as [[r1 | e] w1]; [|reflexivity].
  destruct (search_legistar_legislation http_get (lit "santaclara") _ _ w1)
    as [[r2 | e] w2]; [|reflexivity].
  destruct (search_news_sources http_get (lit "svp") w2)
    as [[r3 | e] w3]; [|reflexivity].
  destruct (search_news_sources http_get (lit "sjce") w3)
    as [[r4 | e] w4]; [|reflexivity].
  cbn [concat app]. rewrite app_nil_r, <- !app_assoc.
  rewrite for_extend_E_each. cbn [app].
  destruct (each_E (source_claims http_get now) _ w4) as [[cls | e] w5];
    [|reflexivity].
  destruct (now w5) as [t w6]. reflexivity.
Qed.

(** What a run that returns has done. *)
Lemma run_returns (w : W) (report : HarvestReport) :
  fst (run_full_scrape http_get now w) = Returns report ->
  exists lists cls,
    fst (each_E (search_origin http_get) origins w) = Returns lists /\
    fst (each_E (source_claims http_get now) (concat lists)
           (snd (each_E (search_origin http_get) origins w))) = Returns cls /\
    report = mkReport (concat lists) (concat cls)
               (fst (now (snd (each_E (source_claims http_get now) (concat lists)
                                 (snd (each_E (search_origin http_get) origins w))))))
               (length (concat lists)) (length (concat cls)).
Proof.
  rewrite run_full_scrape_eq.
  destruct (each_E (search_origin http_get) origins w) as [[lists | e] w4];
    [|discriminate].
  cbn [fst snd].
  destruct (each_E (source_claims http_get now) (concat lists) w4)
    as [[cls | e] w5] eqn:E2; [|discriminate].
  destruct (now w5) as [t w6] eqn:E3. cbn [fst].
  intros [= <-]. exists lists, cls. rewrite E2. cbn [fst snd]. rewrite E3.
  auto.
Qed.

(** The four adapter calls of the run, one after the other. *)
Lemma each_origins (w : W) (lists : list (list SourceRecord)) :
  let s1 := search_legistar_legislation http_get (lit "sanjose") (lit "data center") 90 w in
  let s2 := search_legistar_legislation http_get (lit "santaclara") (lit "data center") 90 (snd s1) in
  let s3 := search_news_sources http_get (lit "svp") (snd s2) in
  let s4 := search_news_sources http_get (lit "sjce") (snd s3) in
  fst (each_E (search_origin http_get) origins w) = Returns lists ->
  lists = [records (fst s1); records (fst s2); records (fst s3); records (fst s4)] /\
  snd (each_E (search_origin http_get) origins w) = snd s4.
Proof.
  intros s1 s2 s3 s4. unfold origins. cbn [each_E search_origin].
  subst s1 s2 s3 s4.
  destruct (search_legistar_legislation http_get (lit "sanjose") _ _ w)
    as [[r1 | e] w1]; [|discriminate]. cbn [fst snd].
  destruct (search_legistar_legislation http_get (lit "santaclara") _ _ w1)
    as [[r2 | e] w2]; [|discriminate]. cbn [fst snd].
  destruct (search_news_sources http_get (lit "svp") w2)
    as [[r3 | e] w3]; [|discriminate]. cbn [fst snd].
  destruct (search_news_sources http_get (lit "sjce") w3)
    as [[r4 | e] w4]; [|discriminate]. cbn [fst snd records].
  now intros [= <-].
Qed.

Lemma each_origins_returned (w : W) (lists : list (list SourceRecord)) :
  let s1 := search_legistar_legislation http_get (lit "sanjose") (lit "data center") 90 w in
  let s2 := search_legistar_legislation http_get (lit "santaclara") (lit "data center") 90 (snd s1) in
  let s3 := search_news_sources http_get (lit "svp") (snd s2) in
  let s4 := search_news_sources http_get (lit "sjce") (snd s3) in
  fst (each_E (search_origin http_get) origins w) = Returns lists ->
  returned (fst s1) /\ returned (fst s2) /\ returned (fst s3) /\ returned (fst s4).
Proof.
  intros s1 s2 s3 s4. unfold origins, returned. cbn [each_E search_origin].
  subst s1 s2 s3 s4.
  destruct (search_legistar_legislation http_get (lit "sanjose") _ _ w)
    as [[r1 | e] w1]; [|discriminate]. cbn [fst snd].
  destruct (search_legistar_legislation http_get (lit "santaclara") _ _ w1)
    as [[r2 | e] w2]; [|discriminate]. cbn [fst snd].
  destruct (search_news_sources http_get (lit "svp") w2)
    as [[r3 | e] w3]; [|discriminate]. cbn [fst snd].
  destruct (search_news_sources http_get (lit "sjce") w3)
    as [[r4 | e] w4]; [|discriminate]. cbn [fst snd].
  intros _. repeat split; eexists; reflexivity.
Qed.

Lemma adapter_returns (o : origin) (w : W) :
  parser_accepts http_get ->
  exists rs, fst (search_origin http_get o w) = Returns rs.
Proof.
  intros Hacc. destruct o as [city | source]; cbn [search_origin].
  - destruct (dict_get (city ++ lit "_legistar") base_urls) as [base_url|] eqn:Hb.
    + rewrite (legistar_call http_get city (lit "data center") 90 w Hb). cbn [fst].
      destruct (fetched_accepted _ (Hacc (mkRequest (base_url ++ lit "/Legislation.aspx")
                  [(lit "Search", lit "data center"); (lit "FullText", lit "1")]) w))
        as [-> | [soup ->]]; eauto.
    + unfold search_legistar_legislation. rewrite Hb. now exists [].
  - destruct (str_eqb source (lit "svp") || str_eqb source (lit "sjce")) eqn:Es.
    + rewrite (news_call http_get source w Es). cbn [fst].
      destruct (fetched_accepted _ (Hacc (mkRequest (base_url_item (source ++ lit "_news")) []) w))
        as [-> | [soup ->]]; eauto.
    + unfold search_news_sources. rewrite Es. now exists [].
Qed.

Lemma source_claims_returns (s : SourceRecord) (w : W) :
  parser_accepts http_get ->
  exists cs, fst (source_claims http_get now s w) = Returns cs.
Proof.
  intros Hacc. unfold source_claims.
  destruct (source_url_of s) as [url|]; [|now exists []].
  destruct (truthy url); [|now exists []].
  unfold bind_E. rewrite extract_text_call.
  destruct (fetched_accepted _ (Hacc (mkRequest url []) w)) as [-> | [soup ->]].
  - now exists [].
  - cbn zeta. destruct (truthy _).
    + unfold lift. destruct (extract_claims_from_text _ _ _ _ _) as [cs w1].
      now exists cs.
    + now exists [].
Qed.

(** When the parser accepts every page, the run returns a report. *)
Lemma run_returns_when_accepted (w : W) :
  parser_accepts http_get ->
  exists report, fst (run_full_scrape http_get now w) = Returns report.
Proof.
  intros Hacc. rewrite run_full_scrape_eq.
  destruct (each_E_returns (search_origin http_get) origins w
              (fun o w' => adapter_returns o w' Hacc)) as [lists Hl].
  destruct (each_E (search_origin http_get) origins w) as [[lists' | e] w4];
    [|discriminate].
  destruct (each_E_returns (source_claims http_get now) (concat lists') w4
              (fun s w' => source_claims_returns s w' Hacc)) as [cls Hc].
  destruct (each_E (source_claims http_get now) (concat lists') w4)
    as [[cls' | e] w5]; [|discriminate].
  destruct (now w5) as [t w6]. cbn [fst]. eexists. reflexivity.
Qed.

(** The records an adapter returns where the orchestrator calls it are in
    the report. *)
Lemma origin_records_reported (w : W) (report : HarvestReport) (i : nat)
  (o : origin) (r : SourceRecord) :
  fst (run_full_scrape http_get now w) = Returns report ->
  nth_error origins i = Some o ->
  In r (records (fst (search_origin http_get o (world_before http_get i w)))) ->
  In r (sources report).
Proof.
  intros Hrun Ho Hr. apply run_returns in Hrun as [lists [cls [Hl [_ ->]]]].
  cbn [sources].
  destruct (@each_E_nth _ _ _ _ _ _ _ _ _ Hl Ho) as [y [Hy Hn]].
  unfold world_before in Hr. rewrite Hy in Hr.
  eapply in_concat_nth; eassumption.
Qed.

(** The texts of the Claims of one source, in sentence order. *)
Lemma source_claims_texts (s : SourceRecord) (w : W) :
  map text (records (fst (source_claims http_get now s w))) =
  match source_url_of s with
  | Some url =>
      if truthy url then
        match fst (extract_text_from_url http_get url w) with
        | Returns (Some t) => filter claim_sentence (map strip (re_split t))
        | _ => []
        end
      else []
  | None => []
  end.
Proof.
  unfold source_claims. destruct (source_url_of s) as [url|]; [|reflexivity].
  destruct (truthy url); [|reflexivity].
  unfold bind_E.
  destruct (extract_text_from_url http_get url w) as [[[t|] | e] w1];
    try reflexivity.
  unfold lift.
  pose proof (extract_claims_texts now t url (source_title_of s) w1) as Ht.
  destruct (extract_claims_from_text now t url (source_title_of s) w1) as [cs w2].
  exact Ht.
Qed.

(** C5. The sources of the report that [run_full_scrape] returns are the
    results that the register adapter returned for sanjose, then
    santaclara, then those that the news adapter returned for svp, then
    sjce; the claims are those of the sources in that order, each
    source's in sentence order; [total_sources] and [total_claims] are the
    lengths of the two sequences.  The run returns a report whenever the
    parser accepts the pages it is given. *)
Theorem run_full_scrape_report (w : W) :
  (parser_accepts http_get ->
   exists report, fst (run_full_scrape http_get now w) = Returns report) /\
  (forall report,
     fst (run_full_scrape http_get now w) = Returns report ->
     let s1 := search_legistar_legislation http_get (lit "sanjose") (lit "data center") 90 w in
     let s2 := search_legistar_legislation http_get (lit "santaclara") (lit "data center") 90 (snd s1) in
     let s3 := search_news_sources http_get (lit "svp") (snd s2) in
     let s4 := search_news_sources http_get (lit "sjce") (snd s3) in
     (returned (fst s1) /\ returned (fst s2) /\ returned (fst s3) /\
      returned (fst s4)) /\
     sources report =
       records (fst s1) ++ records (fst s2) ++ records (fst s3) ++ records (fst s4) /\
     (exists cls,
        fst (each_E (source_claims http_get now) (sources report) (snd s4)) =
          Returns cls /\
        claims report = concat cls) /\
     (forall s w', map text (records (fst (source_claims http_get now s w'))) =
        match source_url_of s with
        | Some url =>
            if truthy url then
              match fst (extract_text_from_url http_get url w') with
              | Returns (Some t) => filter claim_sentence (map strip (re_split t))
              | _ => []
              end
            else []
        | None => []
        end) /\
     total_sources report = length (sources report) /\
     total_claims report = length (claims report)).
Proof.
  split; [apply run_returns_when_accepted|].
  intros report Hrun s1 s2 s3 s4.
  apply run_returns in Hrun as [lists [cls [Hl [Hc ->]]]]. cbn [sources claims
    total_sources total_claims].
  destruct (each_origins w Hl) as [Hlists Hw]. fold s1 s2 s3 s4 in Hlists, Hw.
  split; [exact (each_origins_returned w Hl)|].
  rewrite Hw in Hc.
  assert (Hs : concat lists =
               records (fst s1) ++ records (fst s2) ++ records (fst s3) ++
               records (fst s4)).
  { rewrite Hlists. cbn [concat]. now rewrite app_nil_r. }
  split; [exact Hs|]. split; [|split; [|split]].
  - now exists cls.
  - apply source_claims_texts.
  - reflexivity.
  - reflexivity.
Qed.

End Orchestrator.

Lemma raise_for_status_iff (status_code : N) :
  raise_for_status status_code = true <-> (400 <= status_code < 600)%N.
Proof.
  unfold raise_for_status. rewrite andb_true_iff, N.leb_le, N.ltb_lt. tauto.
Qed.

(** The request fails exactly when the [except] clause is reached. *)
Lemma request_fails_iff (response : Response) :
  request_fails response <-> fetched_of response = RequestFailed.
Proof.
  unfold request_fails. split.
  - intros [-> | [s [p [-> Hs]]]]; [reflexivity|].
    cbn [fetched_of]. apply raise_for_status_iff in Hs. now rewrite Hs.
  - destruct response as [| s p]; [now left|]. cbn [fetched_of].
    destruct (raise_for_status s) eqn:E.
    + intros _. right. exists s, p. split; [reflexivity|].
      now apply raise_for_status_iff.
    + destruct p; discriminate.
Qed.

Section Isolation.

Variable W : Type.
Variable http_get : Request -> W -> Response * W.
Variable now : W -> str * W.

Lemma legistar_request_fails (city term : str) (d : Z) (w : W) (base_url : str) :
  dict_get (city ++ lit "_legistar") base_urls = Some base_url ->
  let req := mkRequest (base_url ++ lit "/Legislation.aspx")
               [(lit "Search", term); (lit "FullText", lit "1")] in
  request_fails (fst (http_get req w)) ->
  search_legistar_legislation http_get city term d w =
  (Returns [], snd (http_get req w)).
Proof.
  intros Hb req Hfail. rewrite (legistar_call http_get city term d w Hb).
  fold req. apply request_fails_iff in Hfail. now rewrite Hfail.
Qed.

Lemma news_request_fails (source : str) (w : W) :
  let req := mkRequest (base_url_item (source ++ lit "_news")) [] in
  request_fails (fst (http_get req w)) ->
  fst (search_news_sources http_get source w) = Returns [].
Proof.
  intros req Hfail.
  destruct (str_eqb source (lit "svp") || str_eqb source (lit "sjce")) eqn:Es.
  - rewrite (news_call http_get source w Es). fold req.
    apply request_fails_iff in Hfail. now rewrite Hfail.
  - unfold search_news_sources. now rewrite Es.
Qed.



Lemma link_href_none_of_find (cell : node) :
  (forall a, In a (find_all (by_name "a") cell) -> link_href (Some a) = None) ->
  link_href (find (by_name "a") cell) = None.
Proof.
  intros H. destruct (find (by_name "a") cell) as [a|] eqn:E; [|reflexivity].
  apply H. now apply find_in_find_all.
Qed.

Lemma source_claims_no_url (s : SourceRecord) (w : W) :
  source_url_of s = None -> source_claims http_get now s w = (Returns [], w).
Proof. intros H. unfold source_claims. now rewrite H. Qed.

Lemma for_extend_E_skip {A B} (body : A -> W -> outcome (list B) * W)
  (pre post : list A) (x : A) (acc : list B) (w : W) :
  (forall w', body x w' = (Returns [], w')) ->
  for_extend_E (pre ++ x :: post) body acc w =
  for_extend_E (pre ++ post) body acc w.
Proof.
  intros Hx. revert acc w. induction pre as [|a pre IH]; intros acc w.
  - cbn [app for_extend_E]. unfold bind_E. rewrite Hx. now rewrite app_nil_r.
  - cbn [app for_extend_E]. unfold bind_E.
    destruct (body a w) as [[ys | e] w1]; [apply IH | reflexivity].
Qed.

(** A row of a fetched listing that gives a record gives it to the
    adapter's result. *)
Lemma legistar_row_in_results (city term : str) (d : Z) (w : W)
  (base_url : str) (soup row : node) (r : SourceRecord) :
  dict_get (city ++ lit "_legistar") base_urls = Some base_url ->
  fetched_of
    (fst (http_get (mkRequest (base_url ++ lit "/Legislation.aspx")
                      [(lit "Search", term); (lit "FullText", lit "1")]) w))
    = Parsed soup ->
  In row (find_all (by_name_class "tr" "row") soup) ->
  legistar_row base_url city term row = Emitted r ->
  In r (records (fst (search_legistar_legislation http_get city term d w))).
Proof.
  intros Hb Hpage Hrow Hr. rewrite (legistar_call http_get city term d w Hb).
  cbn [fst]. rewrite Hpage. cbn [records]. apply emitted_map_In. eauto.
Qed.

Lemma run_claims (w : W) (report : HarvestReport) :
  fst (run_full_scrape http_get now w) = Returns report ->
  fst (for_extend_E (sources report) (source_claims http_get now) []
         (snd (each_E (search_origin http_get) origins w))) =
  Returns (claims report).
Proof.
  intros Hrun. apply run_returns in Hrun as [lists [cls [_ [Hc ->]]]].
  cbn [sources claims]. rewrite for_extend_E_each.
  destruct (each_E (source_claims http_get now) (concat lists) _) as [[cls' | e] w5];
    [|discriminate].
  cbn [fst] in *. now injection Hc as ->.
Qed.

(** C10. A listing row with a title cell, in which no anchor has an
    [href], gives a record with the cell's title, the row's date and no
    URL.  The orchestrator makes no Claim from such a record, and fetches
    nothing for it, while the record is in [sources] and counted in
    [total_sources]. *)
Theorem unlinked_row_yields_no_claims (base_url city term : str)
  (row title_cell : node) :
  find (by_name_class "td" "title") row = Some title_cell ->
  (forall a, In a (find_all (by_name "a") title_cell) ->
             link_href (Some a) = None) ->
  let r := LegistarLegislation city (get_text_strip [] title_cell) None
             match find (by_name_class "td" "date") row with
             | Some date_cell => get_text_strip [] date_cell
             | None => lit "N/A"
             end term in
  legistar_row base_url city term row = Emitted r /\
  source_url_of r = None /\
  (forall w, source_claims http_get now r w = (Returns [], w)) /\
  (forall pre post w,
     for_extend_E (pre ++ r :: post) (source_claims http_get now) [] w =
     for_extend_E (pre ++ post) (source_claims http_get now) [] w) /\
  (forall w i soup report,
     nth_error origins i = Some (Register city) ->
     term = lit "data center" ->
     dict_get (city ++ lit "_legistar") base_urls = Some base_url ->
     fetched_of
       (fst (http_get (mkRequest (base_url ++ lit "/Legislation.aspx")
                         [(lit "Search", term); (lit "FullText", lit "1")])
               (world_before http_get i w))) = Parsed soup ->
     In row (find_all (by_name_class "tr" "row") soup) ->
     fst (run_full_scrape http_get now w) = Returns report ->
     In r (sources report) /\
     total_sources report = length (sources report) /\
     fst (for_extend_E (sources report) (source_claims http_get now) []
            (snd (each_E (search_origin http_get) origins w))) =
       Returns (claims report)).
Proof.
  intros Hcell Hno r.
  assert (Hrow : legistar_row base_url city term row = Emitted r).
  { unfold legistar_row. rewrite Hcell.
    now rewrite (link_href_none_of_find _ Hno). }
  split; [assumption|]. split; [reflexivity|]. split; [|split].
  - intros w. now apply source_claims_no_url.
  - intros pre post w. apply for_extend_E_skip. intros w'.
    now apply source_claims_no_url.
  - intros w i soup report Hi -> Hb Hpage Hin Hrun. split; [|split].
    + eapply origin_records_reported; [exact Hrun | exact Hi|].
      cbn [search_origin]. eapply legistar_row_in_results; eassumption.
    + destruct (run_returns _ _ _ Hrun) as [lists [cls [_ [_ ->]]]]. reflexivity.
    + now apply run_claims.
Qed.

End Isolation.

(** ** Instances on the test world *)

Module Instances.

Import TestWorld.

(** The scenario's Claim satisfies the invariant of the extractor. *)
Lemma extract_claims_invariant_witness :
  In scenario_claim
     (fst (extract_claims_from_text now scenario_text
             (source_url scenario_claim) (source_title scenario_claim) 0)) /\
  trimmed (text scenario_claim) /\
  20 <= length (text scenario_claim).
Proof.
  assert (H : In scenario_claim
                (fst (extract_claims_from_text now scenario_text
                        (source_url scenario_claim) (source_title scenario_claim) 0))).
  { vm_compute. left. reflexivity. }
  split; [exact H|].
  destruct (extract_claims_invariant now scenario_text _ _ 0 scenario_claim H)
    as [_ [Ht [Hl _]]].
  split; [exact Ht | exact Hl].
Defined.







(** The first of these two sentences ends with two full stops; the
    segmentation consumes the second one only, and the Claim made from
    that sentence, which is not the last, ends with a full stop. *)
Lemma nonfinal_claim_ends_with_terminator :
  re_split ellipsis_text = [ellipsis_first; ellipsis_second] /\
  map text (fst (extract_claims_from_text now ellipsis_text [] [] 0)) =
    [ellipsis_first] /\
  map text (fst (sentence_claims now [] [] ellipsis_first 0)) = [ellipsis_first] /\
  ends_with_terminator ellipsis_first.
Proof.
  split; [vm_compute; reflexivity|]. split; [vm_compute; reflexivity|].
  split; [vm_compute; reflexivity|].
  exists "."%char. split; [reflexivity|].
  exists (lit "The data center capacity will grow"). reflexivity.
Qed.

Lemma segmentation_terminators_witness :
  let c := mkClaim ellipsis_first [] [] (lit "T") in
  In c (fst (sentence_claims now [] [] ellipsis_first 0)) /\
  text c = strip ellipsis_first /\
  (ends_with "."%char (text c) -> ends_with "."%char ellipsis_first).
Proof.
  intros c.
  assert (H : In c (fst (sentence_claims now [] [] ellipsis_first 0))).
  { vm_compute. left. reflexivity. }
  split; [exact H|].
  destruct (segmentation_terminators now ellipsis_text [] []) as [_ [_ [Hnon _]]].
  assert (Hs : re_split ellipsis_text = [] ++ ellipsis_first :: [ellipsis_second])
    by (vm_compute; reflexivity).
  assert (Hne : [ellipsis_second] <> []) by discriminate.
  destruct (Hnon [] ellipsis_first [ellipsis_second] 0 c Hs Hne H) as [Ht [_ He]].
  split; [exact Ht|]. apply He. reflexivity.
Defined.



Lemma unlinked_row_witness :
  legistar_row sanjose_base (lit "sanjose") (lit "data center") row_unlinked =
    Emitted unlinked_record /\
  source_claims http_get now unlinked_record 0 = (Returns [], 0) /\
  exists report,
    fst (run_full_scrape http_get now 0) = Returns report /\
    In unlinked_record (sources report).
Proof.
  assert (Hcell : find (by_name_class "td" "title") row_unlinked =
                  Some unlinked_title_cell) by (vm_compute; reflexivity).
  assert (Hno : forall a, In a (find_all (by_name "a") unlinked_title_cell) ->
                          link_href (Some a) = None).
  { intros a Ha. vm_compute in Ha. destruct Ha. }
  destruct (unlinked_row_yields_no_claims http_get now sanjose_base
              (lit "sanjose") (lit "data center") row_unlinked Hcell Hno)
    as [Hrow [_ [Hclaims [_ Hrun]]]].
  split; [exact Hrow|]. split; [exact (Hclaims 0)|].
  assert (Hi : nth_error origins 0 = Some (Register (lit "sanjose")))
    by reflexivity.
  assert (Hb : dict_get (lit "sanjose" ++ lit "_legistar") base_urls =
               Some sanjose_base) by (vm_compute; reflexivity).
  assert (Hpage : fetched_of
                    (fst (http_get
                            (mkRequest (sanjose_base ++ lit "/Legislation.aspx")
                               [(lit "Search", lit "data center"); (lit "FullText", lit "1")])
                            (world_before http_get 0 0))) = Parsed sanjose_listing)
    by (vm_compute; reflexivity).
  assert (Hin : In row_unlinked (find_all (by_name_class "tr" "row") sanjose_listing)).
  { vm_compute. right. left. reflexivity. }
  destruct (fst (run_full_scrape http_get now 0)) as [report | e] eqn:Er;
    [|vm_compute in Er; discriminate].
  exists report. split; [reflexivity|].
  exact (proj1 (Hrun 0 0 sanjose_listing report Hi eq_refl Hb Hpage Hin Er)).
Defined.

End Instances.

(** * Further properties *)

(** ** Sentences as excerpts *)

Lemma occurs_in_refl (s : str) : occurs_in s s.
Proof. exists [], []. now rewrite app_nil_r. Qed.

Lemma occurs_in_trans (a b c : str) :
  occurs_in a b -> occurs_in b c -> occurs_in a c.
Proof.
  intros [p1 [q1 ->]] [p2 [q2 ->]]. exists (p2 ++ p1), (q1 ++ q2).
  now rewrite <- !app_assoc.
Qed.

Lemma occurs_in_cons (a b : str) (c : ascii) :
  occurs_in a b -> occurs_in a (c :: b).
Proof. intros [p [q ->]]. now exists (c :: p), q. Qed.

Lemma occurs_in_length (a b : str) : occurs_in a b -> length a <= length b.
Proof. intros [p [q ->]]. rewrite !length_app. lia. Qed.

Lemma occurs_in_lower (a b : str) :
  occurs_in a b -> occurs_in (lower a) (lower b).
Proof.
  intros [p [q ->]]. exists (lower p), (lower q). unfold lower.
  now rewrite !map_app.
Qed.

Lemma strip_occurs (p : str) : occurs_in (strip p) p.
Proof.
  destruct (strip_decompose p) as [lead [trail [H _]]]. now exists lead, trail.
Qed.

(** Every piece of the segmentation is an excerpt of the text. *)
Lemma piece_occurs (t p : str) : In p (re_split t) -> occurs_in p t.
Proof.
  revert p. induction t as [| c r Hc Hr IH | c r E IH] using split_ind; intros p.
  - intros [<- | []]. apply occurs_in_refl.
  - rewrite re_split_cons, Hc, Hr. cbn [andb]. intros [<- | H].
    + now exists [], (c :: r).
    + apply occurs_in_cons. apply (occurs_in_trans (IH p H)).
      exists (lspaces r), []. rewrite app_nil_r. apply lspaces_lstrip.
  - rewrite re_split_cons, E.
    destruct (re_split r) as [|p0 ps0] eqn:Ep; [now destruct (re_split_nonempty r)|].
    simpl. intros [<- | H].
    + destruct (piece_prefix _ Ep) as [rest ->]. now exists [], rest.
    + apply occurs_in_cons, IH. now right.
Qed.

Lemma not_has_match_tail (c : ascii) (r : str) :
  ~ has_match (c :: r) -> ~ has_match r.
Proof.
  intros H [pre [x [w [post [-> Hxw]]]]]. apply H.
  now exists (c :: pre), x, w, post.
Qed.

(** X5. The segmentation returns the text itself, as a single sentence,
    exactly when the text has no terminator followed by whitespace. *)
Theorem single_sentence_iff (t : str) :
  re_split t = [t] <-> ~ has_match t.
Proof.
  split.
  - intros H. apply (pieces_no_match t). rewrite H. now left.
  - induction t as [| c r Hc Hr IH | c r E IH] using split_ind; intros Hno.
    + reflexivity.
    + exfalso. apply Hno. destruct r as [|w r]; [discriminate|].
      simpl in Hr. now exists [], c, w, r.
    + rewrite re_split_cons, E, IH; [reflexivity|].
      now apply not_has_match_tail in Hno.
Qed.

Lemma readings_length {W} (now : W -> str * W) (n : nat) (w : W) :
  length (fst (readings now n w)) = n.
Proof.
  revert w. induction n as [|n IH]; intros w; simpl; [reflexivity|].
  destruct (now w) as [t w1]. specialize (IH w1).
  destruct (readings now n w1). simpl in *. now rewrite IH.
Qed.

Section ExtractorMore.

Variable W : Type.
Variable now : W -> str * W.

Lemma for_extend_claims (url title : str) (ss : list str) (acc : list Claim) (w : W) :
  let texts := filter claim_sentence (map strip ss) in
  for_extend ss (sentence_claims now url title) acc w =
  (acc ++ map (fun x => mkClaim (fst x) url title (snd x))
            (combine texts (fst (readings now (length texts) w))),
   snd (readings now (length texts) w)).
Proof.
  revert acc w. induction ss as [|s ss IH]; intros acc w; cbn zeta.
  - simpl. unfold ret. now rewrite app_nil_r.
  - cbn [for_extend map filter]. unfold bind at 1. unfold sentence_claims at 1.
    destruct (claim_sentence (strip s)) eqn:E.
    + unfold bind, ret. cbn [length readings].
      destruct (now w) as [stamp w1]. rewrite IH. cbn zeta.
      destruct (readings now _ w1) as [stamps w2]. cbn [fst snd combine map].
      now rewrite <- app_assoc.
    + unfold ret. rewrite IH. cbn zeta. now rewrite app_nil_r.
Qed.

Lemma extract_claims_eq (t url title : str) (w : W) :
  let texts := filter claim_sentence (map strip (re_split t)) in
  extract_claims_from_text now t url title w =
  (map (fun x => mkClaim (fst x) url title (snd x))
       (combine texts (fst (readings now (length texts) w))),
   snd (readings now (length texts) w)).
Proof.
  unfold extract_claims_from_text. cbn zeta.
  now rewrite (for_extend_claims url title (re_split t) [] w).
Qed.

(** X1. [extract_claims_from_text] returns one Claim for each stripped
    sentence that passes the guards, in sentence order, all with the given
    URL and title; it reads the clock once for each Claim, in that order,
    and the Claim's time stamp is that reading. *)
Theorem extract_claims_characterized (t url title : str) (w : W) :
  let texts := filter claim_sentence (map strip (re_split t)) in
  let stamps := fst (readings now (length texts) w) in
  length stamps = length texts /\
  extract_claims_from_text now t url title w =
  (map (fun x => mkClaim (fst x) url title (snd x)) (combine texts stamps),
   snd (readings now (length texts) w)).
Proof.
  cbn zeta. split; [apply readings_length | apply extract_claims_eq].
Qed.

(** X2. The extractor misses no sentence: a piece of the segmentation whose
    stripped text has at least 20 characters, contains a keyword phrase in
    any letter case, and contains a digit or one of the strong words in any
    letter case, gives a Claim with that text, URL and title. *)
Theorem extract_claims_complete (t url title : str) (w : W) (p k : str) :
  In p (re_split t) ->
  20 <= length (strip p) ->
  In (lower k) keywords -> occurs_in k (strip p) ->
  ((exists d, In d (strip p) /\ isdigit d = true) \/
   (exists k', In (lower k') strong_words /\ occurs_in k' (strip p))) ->
  exists c,
    In c (fst (extract_claims_from_text now t url title w)) /\
    text c = strip p /\ source_url c = url /\ source_title c = title.
Proof.
  intros Hp Hlen Hk Hocc Hev.
  assert (Hg : claim_sentence (strip p) = true).
  { apply claim_sentence_iff. split; [assumption|]. split.
    - exists (lower k). split; [assumption | now apply occurs_in_lower].
    - destruct Hev as [[d [Hd Hdig]] | [k' [Hk' Ho']]].
      + left. exists [d]. split.
        * split; [discriminate | simpl; now rewrite Hdig].
        * apply in_split in Hd as [l1 [l2 ->]]. now exists l1, l2.
      + right. exists (lower k'). split; [assumption | now apply occurs_in_lower]. }
  assert (Hin : In (strip p) (map text (fst (extract_claims_from_text now t url title w)))).
  { rewrite extract_claims_texts. apply filter_In. split; [|assumption].
    now apply in_map. }
  apply in_map_iff in Hin as [c [Hc Hin]]. exists c.
  split; [assumption|]. split; [assumption|].
  eapply extract_claims_attribution; eassumption.
Qed.

Lemma claim_text_excerpt_aux (t url title : str) (w : W) (c : Claim) :
  In c (fst (extract_claims_from_text now t url title w)) ->
  occurs_in (text c) t.
Proof.
  intros Hc. apply (in_map text) in Hc. rewrite extract_claims_texts in Hc.
  apply filter_In in Hc as [Hin _].
  apply in_map_iff in Hin as [p [<- Hp]].
  apply (occurs_in_trans (strip_occurs p)). now apply piece_occurs.
Qed.

(** X3. The text of every Claim is a verbatim excerpt of the text given
    to the extractor, and is no longer than it. *)
Theorem claim_text_is_excerpt (t url title : str) (w : W) (c : Claim) :
  In c (fst (extract_claims_from_text now t url title w)) ->
  occurs_in (text c) t /\ length (text c) <= length t.
Proof.
  intros Hc. apply claim_text_excerpt_aux in Hc.
  split; [assumption | now apply occurs_in_length].
Qed.

Lemma no_sentence_no_claims (t url title : str) (w : W) :
  (forall p, In p (re_split t) -> claim_sentence (strip p) = false) ->
  extract_claims_from_text now t url title w = ([], w).
Proof.
  intros H. rewrite extract_claims_eq. cbn zeta.
  assert (Hnil : filter claim_sentence (map strip (re_split t)) = []).
  { induction (re_split t) as [|p ps IH]; [reflexivity|]. simpl.
    rewrite (H p (or_introl eq_refl)). apply IH.
    intros q Hq. apply H. now right. }
  rewrite Hnil. reflexivity.
Qed.

(** X4. A text of fewer than 20 characters, the empty text among them,
    gives no Claim, and the clock is not read. *)
Theorem short_text_no_claims (t url title : str) (w : W) :
  length t < 20 ->
  extract_claims_from_text now t url title w = ([], w).
Proof.
  intros Hlen. apply no_sentence_no_claims. intros p Hp.
  unfold claim_sentence.
  assert (Hl : length (strip p) <= length t).
  { apply occurs_in_length, (occurs_in_trans (strip_occurs p)).
    now apply piece_occurs. }
  destruct (Nat.leb_spec 20 (length (strip p))); [lia | reflexivity].
Qed.

(** X6. A text in which no keyword phrase occurs, whatever the letter
    case, gives no Claim, however many numbers or strong words it has. *)
Theorem no_keyword_no_claims (t url title : str) (w : W) :
  (forall kw, In kw keywords -> ~ occurs_in kw (lower t)) ->
  extract_claims_from_text now t url title w = ([], w).
Proof.
  intros Hno. apply no_sentence_no_claims. intros p Hp.
  unfold claim_sentence.
  destruct (existsb (fun kw => contains kw (lower (strip p))) keywords) eqn:E.
  - exfalso. apply existsb_contains_iff in E as [kw [pre [post [Hk Hs]]]].
    apply (Hno kw Hk).
    apply (@occurs_in_trans kw (lower (strip p)) (lower t)).
    + now exists pre, post.
    + apply occurs_in_lower, (occurs_in_trans (strip_occurs p)).
      now apply piece_occurs.
  - now rewrite andb_false_r.
Qed.

End ExtractorMore.

(** ** The text extractor *)

(** Induction on a tree, with the property of all children at hand. *)
Lemma node_induction (P : node -> Prop) :
  (forall c s, P (Text c s)) ->
  (forall nm attrs cs, Forall P cs -> P (Elem nm attrs cs)) ->
  forall n, P n.
Proof.
  intros Ht He.
  refine (fix IH (n : node) : P n :=
            match n with
            | Text c s => Ht c s
            | Elem nm attrs cs =>
                He nm attrs cs
                  ((fix all (l : list node) : Forall P l :=
                      match l with
                      | [] => Forall_nil P
                      | c :: r => Forall_cons c (IH c) (all r)
                      end) cs)
            end).
Qed.

Lemma descendants_elem (nm : str) (attrs : list (str * attr_value)) (cs : list node) :
  descendants (Elem nm attrs cs) = flat_map (fun c => c :: descendants c) cs.
Proof.
  simpl. induction cs as [|c cs IH]; [reflexivity|].
  simpl. now rewrite IH.
Qed.

Lemma decompose_all_elem (names : list str) (nm : str)
  (attrs : list (str * attr_value)) (cs : list node) :
  decompose_all names (Elem nm attrs cs) =
  Elem nm attrs
    (map (decompose_all names) (filter (fun c => negb (named names c)) cs)).
Proof.
  simpl. f_equal. induction cs as [|c cs IH]; [reflexivity|].
  destruct c as [s | cn cattrs ccs]; simpl.
  - now rewrite IH.
  - destruct (name_in cn names); simpl; now rewrite IH.
Qed.

Lemma decompose_all_named (names : list str) (n : node) :
  named names (decompose_all names n) = named names n.
Proof. destruct n; reflexivity. Qed.

(** X7. After the removal no element with one of the names is left
    anywhere below the root: the text is taken from a page without
    [script] and [style]. *)
Theorem decompose_all_removes (names : list str) (n d : node) :
  In d (descendants (decompose_all names n)) -> named names d = false.
Proof.
  revert d. induction n as [s | nm attrs cs IH] using node_induction; intros d.
  - intros [].
  - rewrite decompose_all_elem, descendants_elem, in_flat_map.
    intros [c' [Hc' Hd]]. apply in_map_iff in Hc' as [c [<- Hc]].
    apply filter_In in Hc as [Hc Hkeep].
    destruct Hd as [<- | Hd].
    + rewrite decompose_all_named. now apply negb_true_iff.
    + rewrite Forall_forall in IH. now apply (IH c Hc).
Qed.

(** X8. A page with no element of these names is left as it is. *)
Theorem decompose_all_unchanged (names : list str) (n : node) :
  (forall d, In d (descendants n) -> named names d = false) ->
  decompose_all names n = n.
Proof.
  induction n as [s | nm attrs cs IH] using node_induction; intros H.
  - reflexivity.
  - rewrite decompose_all_elem. f_equal.
    rewrite descendants_elem in H.
    assert (Hkeep : filter (fun c => negb (named names c)) cs = cs).
    { apply forallb_filter_id. apply forallb_forall. intros c Hc.
      apply negb_true_iff, H, in_flat_map. exists c. split; [assumption | now left]. }
    rewrite Hkeep. rewrite <- (map_id cs) at 2. apply map_ext_in.
    intros c Hc. rewrite Forall_forall in IH. apply (IH c Hc).
    intros d Hd. apply H, in_flat_map. exists c. split; [assumption | now right].
Qed.









Section TextExtractor.

Variable W : Type.
Variable http_get : Request -> W -> Response * W.



End TextExtractor.

(** ** The adapters *)

Lemma legistar_key_sanjose (city : str) :
  lit "sanjose_legistar" = city ++ lit "_legistar" -> city = lit "sanjose".
Proof.
  change (lit "sanjose_legistar") with (lit "sanjose" ++ lit "_legistar").
  intros H. symmetry. now apply app_inv_tail in H.
Qed.

Lemma legistar_key_santaclara (city : str) :
  lit "santaclara_legistar" = city ++ lit "_legistar" -> city = lit "santaclara".
Proof.
  change (lit "santaclara_legistar") with (lit "santaclara" ++ lit "_legistar").
  intros H. symmetry. now apply app_inv_tail in H.
Qed.

Lemma legistar_key_not_news (city : str) (source : string) :
  source = "svp"%string \/ source = "sjce"%string ->
  lit source ++ lit "_news" <> city ++ lit "_legistar".
Proof.
  intros Hs H. apply (f_equal (@rev ascii)) in H.
  rewrite !rev_app_distr in H.
  destruct Hs as [-> | ->]; discriminate H.
Qed.

(** The table has an entry for a register key of the two cities only. *)
Lemma dict_get_legistar (city : str) :
  dict_get (city ++ lit "_legistar") base_urls =
  if list_eq_dec ascii_dec city (lit "sanjose")
  then Some (lit "https://sanjose.legistar.com")
  else if list_eq_dec ascii_dec city (lit "santaclara")
       then Some (lit "https://santaclara.legistar.com")
       else None.
Proof.
  unfold base_urls. cbn [dict_get].
  destruct (str_eqb (lit "sanjose_legistar") (city ++ lit "_legistar")) eqn:E1.
  { apply str_eqb_eq, legistar_key_sanjose in E1. subst city.
    now destruct (list_eq_dec ascii_dec (lit "sanjose") (lit "sanjose")). }
  destruct (list_eq_dec ascii_dec city (lit "sanjose")) as [->|N1].
  { vm_compute in E1. discriminate. }
  destruct (str_eqb (lit "santaclara_legistar") (city ++ lit "_legistar")) eqn:E2.
  { apply str_eqb_eq, legistar_key_santaclara in E2. subst city.
    now destruct (list_eq_dec ascii_dec (lit "santaclara") (lit "santaclara")). }
  destruct (list_eq_dec ascii_dec city (lit "santaclara")) as [->|N2].
  { vm_compute in E2. discriminate. }
  destruct (str_eqb (lit "svp_news") (city ++ lit "_legistar")) eqn:E3.
  { apply str_eqb_eq in E3. exfalso.
    apply (@legistar_key_not_news city "svp"); [now left | exact E3]. }
  destruct (str_eqb (lit "sjce_news") (city ++ lit "_legistar")) eqn:E4.
  { apply str_eqb_eq in E4. exfalso.
    apply (@legistar_key_not_news city "sjce"); [now right | exact E4]. }
  reflexivity.
Qed.




Section AdaptersMore.

Variable W : Type.
Variable http_get : Request -> W -> Response * W.

(** X11. A city other than sanjose and santaclara, and a news source
    other than svp and sjce, give the empty list without any request: the
    world is left as it was. *)
Theorem unknown_origin_no_request (city term source : str) (d : Z) (w : W) :
  (city <> lit "sanjose" -> city <> lit "santaclara" ->
   search_legistar_legislation http_get city term d w = (Returns [], w)) /\
  (source <> lit "svp" -> source <> lit "sjce" ->
   search_news_sources http_get source w = (Returns [], w)).
Proof.
  split.
  - intros N1 N2. unfold search_legistar_legislation.
    rewrite dict_get_legistar.
    destruct (list_eq_dec ascii_dec city (lit "sanjose")); [contradiction|].
    destruct (list_eq_dec ascii_dec city (lit "santaclara")); [contradiction|].
    reflexivity.
  - intros N1 N2. unfold search_news_sources.
    destruct (str_eqb source (lit "svp")) eqn:E1;
      [apply str_eqb_eq in E1; contradiction|].
    destruct (str_eqb source (lit "sjce")) eqn:E2;
      [apply str_eqb_eq in E2; contradiction|].
    reflexivity.
Qed.


(** A record of the news adapter comes from one of the selected blocks. *)
Lemma news_results_blocks (source : str) (w : W) (r : SourceRecord) :
  In r (records (fst (search_news_sources http_get source w))) ->
  exists soup block,
    fetched_of
      (fst (http_get (mkRequest (base_url_item (source ++ lit "_news")) []) w))
      = Parsed soup /\
    In block (listing_blocks soup) /\
    news_article source block = Emitted r.
Proof.
  destruct (str_eqb source (lit "svp") || str_eqb source (lit "sjce")) eqn:Es.
  - rewrite (news_call http_get source w Es). cbn [fst].
    destruct (fetched_of _) as [| |soup] eqn:E; cbn [records]; try (intros []).
    rewrite emitted_map_In. intros [block [Hb Hr]].
    exists soup, block. repeat split; assumption.
  - unfold search_news_sources. rewrite Es. intros [].
Qed.


(** X14. When the fetched listing has an [article] element, every record
    of the news adapter comes from an [article] element: the blocks of
    class [news-item] are looked at only when there is no [article]. *)
Theorem news_blocks_articles_first (source : str) (w : W) (soup : node)
  (r : SourceRecord) :
  fetched_of
    (fst (http_get (mkRequest (base_url_item (source ++ lit "_news")) []) w))
    = Parsed soup ->
  find_all (by_name "article") soup <> [] ->
  In r (records (fst (search_news_sources http_get source w))) ->
  exists block,
    In block (find_all (by_name "article") soup) /\
    matches (by_name "article") block = true /\
    news_article source block = Emitted r.
Proof.
  intros Hpage Hne Hr.
  apply news_results_blocks in Hr as [soup' [block [Hp [Hb Hart]]]].
  rewrite Hpage in Hp. injection Hp as <-.
  unfold listing_blocks in Hb.
  destruct (find_all (by_name "article") soup) as [|a l] eqn:Ea; [congruence|].
  exists block. split; [exact Hb|]. split; [|exact Hart].
  rewrite <- Ea in Hb. unfold find_all in Hb. apply filter_In in Hb. tauto.
Qed.

End AdaptersMore.

(** X15. Resolving a link is stable: a URL that the resolution against an
    [http] prefix has given is left unchanged when it is resolved
    again. *)
Theorem resolve_url_stable (prefix h u : str) :
  startswith prefix (lit "http") = true ->
  resolve_url prefix (Some (AttrStr h)) = Some (Some u) ->
  resolve_url prefix (Some (AttrStr u)) = Some (Some u).
Proof.
  intros Hp Hr. apply resolve_url_some in Hr as [h' [[= <-] Hu]].
  assert (Hs : startswith u (lit "http") = true).
  { rewrite Hu. destruct (startswith h (lit "http")) eqn:E; [assumption|].
    now apply startswith_app. }
  unfold resolve_url. now rewrite Hs.
Qed.

(** ** The report *)

Lemma map_fst_combine {A B} (l : list A) (l' : list B) :
  length l = length l' -> map fst (combine l l') = l.
Proof.
  revert l'. induction l as [|a l IH]; intros [|b l'] H; simpl in *;
    try reflexivity; try discriminate.
  f_equal. apply IH. lia.
Qed.

(** When the outcomes of a body agree whatever the world, so do those
    of the loop. *)
Lemma each_E_rel {W A B} (R : B -> B -> Prop) (body : A -> W -> outcome B * W)
  (xs : list A) (w1 w2 : W) :
  (forall x v1 v2, outcome_rel R (fst (body x v1)) (fst (body x v2))) ->
  outcome_rel (Forall2 R) (fst (each_E body xs w1)) (fst (each_E body xs w2)).
Proof.
  intros H. revert w1 w2. induction xs as [|x xs IH]; intros w1 w2; simpl.
  - constructor.
  - specialize (H x w1 w2) as Hx.
    destruct (body x w1) as [[y1 | e1] v1]; destruct (body x w2) as [[y2 | e2] v2];
      simpl in Hx; try contradiction; [|exact I].
    specialize (IH v1 v2).
    destruct (each_E body xs v1) as [[ys1 | e1] u1];
      destruct (each_E body xs v2) as [[ys2 | e2] u2];
      simpl in *; try contradiction; [|exact I].
    now constructor.
Qed.

Lemma Forall2_eq {A} (l1 l2 : list A) : Forall2 eq l1 l2 -> l1 = l2.
Proof. induction 1; [reflexivity | now subst]. Qed.

Lemma same_content_concat (l1 l2 : list (list Claim)) :
  Forall2 same_content l1 l2 -> same_content (concat l1) (concat l2).
Proof.
  unfold same_content. induction 1 as [|a b l1 l2 Hab _ IH]; [reflexivity|].
  simpl. rewrite !map_app. now rewrite Hab, IH.
Qed.

Section ReportMore.

Variable W : Type.
Variable http_get : Request -> W -> Response * W.
Variable now : W -> str * W.

Lemma register_record_shape (city : str) (d : Z) (w : W) (r : SourceRecord) :
  In r (records (fst (search_legistar_legislation http_get city (lit "data center") d w))) ->
  is_register_record r.
Proof.
  intros Hr.
  apply legistar_results in Hr as [base_url [soup [row [Hb [_ [_ Hrow]]]]]].
  apply legistar_row_emitted in Hrow as [cell [url [_ [_ ->]]]].
  eexists city, _, url, _. split; [reflexivity|].
  rewrite dict_get_legistar in Hb.
  destruct (list_eq_dec ascii_dec city (lit "sanjose")); [now left|].
  destruct (list_eq_dec ascii_dec city (lit "santaclara")); [now right|].
  discriminate.
Qed.

Lemma news_record_shape (source : str) (w : W) (r : SourceRecord) :
  In r (records (fst (search_news_sources http_get source w))) ->
  is_news_record r.
Proof.
  intros Hr.
  apply news_results in Hr as [Hsrc [soup [article [_ [_ Hart]]]]].
  apply news_article_emitted in Hart as [e [url [date [_ [_ [_ ->]]]]]].
  eexists source, _, url, date. split; [reflexivity | assumption].
Qed.

(** X16. In every report the sources are register records followed by
    news records: the former are of sanjose or santaclara and carry the
    search term "data center", the latter are of svp or sjce. *)
Theorem report_sources_shape (w : W) (report : HarvestReport) :
  fst (run_full_scrape http_get now w) = Returns report ->
  exists registers news,
    sources report = registers ++ news /\
    Forall is_register_record registers /\
    Forall is_news_record news.
Proof.
  intros Hrun. apply run_returns in Hrun as [lists [cls [Hl [_ ->]]]].
  cbn [sources]. destruct (each_origins http_get w Hl) as [-> _].
  cbn [concat]. rewrite app_nil_r.
  eexists (_ ++ _), (_ ++ _). split; [now rewrite <- app_assoc|]. split.
  - apply Forall_app. split; apply Forall_forall; intros r Hr;
      eapply register_record_shape; exact Hr.
  - apply Forall_app. split; apply Forall_forall; intros r Hr;
      eapply news_record_shape; exact Hr.
Qed.

Lemma source_claims_provenance (s : SourceRecord) (w : W) (c : Claim) :
  In c (records (fst (source_claims http_get now s w))) ->
  source_url_of s = Some (source_url c) /\
  source_title_of s = source_title c /\
  exists t, fst (extract_text_from_url http_get (source_url c) w) = Returns (Some t) /\
            occurs_in (text c) t.
Proof.
  unfold source_claims. destruct (source_url_of s) as [url|]; [|intros []].
  destruct (truthy url); [|intros []].
  unfold bind_E.
  destruct (extract_text_from_url http_get url w) as [[[t|] | e] w1] eqn:E;
    try (intros []).
  unfold lift.
  destruct (extract_claims_from_text now t url (source_title_of s) w1)
    as [cs w2] eqn:Ec. cbn [fst records].
  intros Hc.
  assert (Hc' : In c (fst (extract_claims_from_text now t url (source_title_of s) w1)))
    by now rewrite Ec.
  pose proof (extract_claims_attribution _ _ _ _ _ _ Hc') as [Hu Ht].
  subst url. split; [reflexivity|]. split; [now rewrite Ht|].
  exists t. rewrite E. split; [reflexivity|].
  eapply claim_text_excerpt_aux; exact Hc'.
Qed.

(** X17. Every Claim of a report is attributed to a source of the same
    report: the Claim is one that the orchestrator made from that source
    at its turn, in the world the adapters and the turns of the sources
    before it had left; its [source_url] is that source's URL, its
    [source_title] is that source's title as it is (the "Unknown" default
    never applies), and its text is an excerpt of the text fetched from
    that URL at that turn. *)
Theorem report_claims_provenance (w : W) (report : HarvestReport) (c : Claim) :
  fst (run_full_scrape http_get now w) = Returns report ->
  In c (claims report) ->
  exists pre s post,
    sources report = pre ++ s :: post /\
    let w' := snd (each_E (source_claims http_get now) pre
                     (snd (each_E (search_origin http_get) origins w))) in
    In c (records (fst (source_claims http_get now s w'))) /\
    source_url_of s = Some (source_url c) /\
    source_title_of s = source_title c /\
    exists t, fst (extract_text_from_url http_get (source_url c) w') = Returns (Some t) /\
              occurs_in (text c) t.
Proof.
  intros Hrun Hc. apply run_returns in Hrun as [lists [cls [_ [Hcls ->]]]].
  cbn [sources claims] in *. apply in_concat in Hc as [ys [Hys Hc]].
  destruct (@each_E_In _ _ _ _ _ _ _ _ Hcls Hys) as [pre [s [post [Hs Hy]]]].
  exists pre, s, post. split; [assumption|]. cbn zeta.
  assert (Hin : In c (records (fst (source_claims http_get now s
                  (snd (each_E (source_claims http_get now) pre
                          (snd (each_E (search_origin http_get) origins w))))))))
    by now rewrite Hy.
  split; [assumption|]. now apply source_claims_provenance.
Qed.

(** X18. Without network, when every request fails, the run still
    returns a report: it has no source and no Claim, and both totals
    are 0. *)
Theorem offline_report_empty (w : W) :
  (forall req w', request_fails (fst (http_get req w'))) ->
  exists report,
    fst (run_full_scrape http_get now w) = Returns report /\
    sources report = [] /\ claims report = [] /\
    total_sources report = 0 /\ total_claims report = 0.
Proof.
  intros Hoff.
  assert (Hacc : parser_accepts http_get).
  { intros req w'. specialize (Hoff req w'). apply request_fails_iff in Hoff.
    rewrite Hoff. discriminate. }
  destruct (@run_returns_when_accepted _ http_get now w Hacc) as [report Hrun].
  exists report. split; [assumption|].
  apply run_returns in Hrun as [lists [cls [Hl [Hc ->]]]].
  cbn [sources claims total_sources total_claims].
  destruct (each_origins http_get w Hl) as [Hlists _].
  assert (Hs : concat lists = []).
  { assert (HL : forall city w',
               records (fst (search_legistar_legislation http_get city
                               (lit "data center") 90 w')) = []).
    { intros city w'.
      destruct (dict_get (city ++ lit "_legistar") base_urls) as [b|] eqn:Hb.
      - now rewrite (@legistar_request_fails _ http_get city (lit "data center")
                       90 w' b Hb (Hoff _ _)).
      - unfold search_legistar_legislation. now rewrite Hb. }
    assert (HN : forall source w',
               records (fst (search_news_sources http_get source w')) = []).
    { intros source w'.
      now rewrite (@news_request_fails _ http_get source w' (Hoff _ _)). }
    rewrite Hlists. cbn [concat]. now rewrite !HL, !HN. }
  rewrite Hs in Hc |- *. cbn [each_E fst] in Hc. injection Hc as <-.
  repeat split.
Qed.

Lemma legistar_world_independent (city term : str) (d : Z) (w1 w2 : W) :
  (forall req v1 v2, fst (http_get req v1) = fst (http_get req v2)) ->
  fst (search_legistar_legislation http_get city term d w1) =
  fst (search_legistar_legislation http_get city term d w2).
Proof.
  intros H.
  destruct (dict_get (city ++ lit "_legistar") base_urls) as [b|] eqn:Hb.
  - rewrite !(legistar_call http_get city term d _ Hb). cbn [fst].
    now rewrite (H _ w1 w2).
  - unfold search_legistar_legislation. now rewrite Hb.
Qed.

Lemma news_world_independent (source : str) (w1 w2 : W) :
  (forall req v1 v2, fst (http_get req v1) = fst (http_get req v2)) ->
  fst (search_news_sources http_get source w1) =
  fst (search_news_sources http_get source w2).
Proof.
  intros H.
  destruct (str_eqb source (lit "svp") || str_eqb source (lit "sjce")) eqn:Es.
  - rewrite !(news_call http_get source _ Es). cbn [fst].
    now rewrite (H _ w1 w2).
  - unfold search_news_sources. now rewrite Es.
Qed.

Lemma extract_claims_content (t url title : str) (w : W) :
  map claim_content (fst (extract_claims_from_text now t url title w)) =
  map (fun x => (x, url, title)) (filter claim_sentence (map strip (re_split t))).
Proof.
  rewrite extract_claims_eq. cbn [fst].
  rewrite map_map. unfold claim_content. cbn [text source_url source_title].
  rewrite <- (map_map fst (fun x => (x, url, title))).
  now rewrite map_fst_combine by now rewrite readings_length.
Qed.

Lemma source_claims_world_independent (s : SourceRecord) (w1 w2 : W) :
  (forall req v1 v2, fst (http_get req v1) = fst (http_get req v2)) ->
  outcome_rel same_content (fst (source_claims http_get now s w1))
    (fst (source_claims http_get now s w2)).
Proof.
  intros H. unfold source_claims.
  destruct (source_url_of s) as [url|]; [|reflexivity].
  destruct (truthy url); [|reflexivity].
  unfold bind_E. rewrite !extract_text_call. rewrite (H _ w1 w2).
  destruct (fetched_of (fst (http_get (mkRequest url []) w2))) as [| |soup];
    [reflexivity | exact I |].
  cbn zeta. destruct (truthy _); [|reflexivity].
  unfold lift.
  pose proof (extract_claims_content
                (get_text_strip ["010"%char]
                   (decompose_all [lit "script"; lit "style"] soup))
                url (source_title_of s)) as Hc.
  pose proof (Hc (snd (http_get (mkRequest url []) w1))) as H1.
  pose proof (Hc (snd (http_get (mkRequest url []) w2))) as H2.
  destruct (extract_claims_from_text now _ url (source_title_of s)
              (snd (http_get (mkRequest url []) w1))) as [cs1 u1].
  destruct (extract_claims_from_text now _ url (source_title_of s)
              (snd (http_get (mkRequest url []) w2))) as [cs2 u2].
  cbn [fst outcome_rel] in *. unfold same_content. now rewrite H1, H2.
Qed.

(** X19. When the response to a request does not depend on the moment
    it is made, two runs give the same sources and the same Claims up to
    their time stamps, whatever the worlds they start in: when one returns
    a report, so does the other. *)
Theorem runs_agree_up_to_time (w1 w2 : W) (r1 : HarvestReport) :
  (forall req v1 v2, fst (http_get req v1) = fst (http_get req v2)) ->
  fst (run_full_scrape http_get now w1) = Returns r1 ->
  exists r2,
    fst (run_full_scrape http_get now w2) = Returns r2 /\
    sources r1 = sources r2 /\
    map claim_content (claims r1) = map claim_content (claims r2) /\
    total_sources r1 = total_sources r2 /\
    total_claims r1 = total_claims r2.
Proof.
  intros H Hrun. apply run_returns in Hrun as [lists [cls [Hl [Hc ->]]]].
  cbn [sources claims total_sources total_claims].
  pose proof (each_E_rel eq (search_origin http_get) origins w1 w2) as Ho.
  rewrite Hl in Ho.
  assert (Hl2 : fst (each_E (search_origin http_get) origins w2) = Returns lists).
  { destruct (fst (each_E (search_origin http_get) origins w2)) as [lists2 | e].
    - f_equal. symmetry. apply Forall2_eq. apply Ho.
      intros [city | source] v1 v2; cbn [search_origin].
      + rewrite (legistar_world_independent city (lit "data center") 90 v1 v2 H).
        destruct (fst (search_legistar_legislation _ _ _ _ v2)); simpl; auto.
      + rewrite (news_world_independent source v1 v2 H).
        destruct (fst (search_news_sources _ _ v2)); simpl; auto.
    - exfalso. apply Ho.
      intros [city | source] v1 v2; cbn [search_origin].
      + rewrite (legistar_world_independent city (lit "data center") 90 v1 v2 H).
        destruct (fst (search_legistar_legislation _ _ _ _ v2)); simpl; auto.
      + rewrite (news_world_independent source v1 v2 H).
        destruct (fst (search_news_sources _ _ v2)); simpl; auto. }
  pose proof (each_E_rel same_content (source_claims http_get now) (concat lists)
                (snd (each_E (search_origin http_get) origins w1))
                (snd (each_E (search_origin http_get) origins w2))
                (fun s v1 v2 => source_claims_world_independent s v1 v2 H)) as Hcl.
  rewrite Hc in Hcl.
  rewrite run_full_scrape_eq.
  destruct (each_E (search_origin http_get) origins w2) as [o2 w4] eqn:E2.
  cbn [fst snd] in *. subst o2.
  destruct (each_E (source_claims http_get now) (concat lists) w4)
    as [[cls2 | e] w5]; cbn [fst outcome_rel] in Hcl; [|contradiction].
  destruct (now w5) as [t w6]. cbn [fst].
  eexists. split; [reflexivity|]. cbn [sources claims total_sources total_claims].
  apply same_content_concat in Hcl. unfold same_content in Hcl.
  split; [reflexivity|]. split; [assumption|]. split; [reflexivity|].
  rewrite <- (length_map claim_content (concat cls)).
  rewrite <- (length_map claim_content (concat cls2)). now rewrite Hcl.
Qed.

End ReportMore.

(** ** Further instances on the test world *)

Module MoreInstances.

Import TestWorld.

Lemma extract_claims_complete_witness :
  exists c,
    In c (fst (extract_claims_from_text now scenario_text detail_url [] 0)) /\
    text c = strip scenario_first.
Proof.
  assert (Hp : In scenario_first (re_split scenario_text))
    by (vm_compute; left; reflexivity).
  assert (Hl : 20 <= length (strip scenario_first)) by (vm_compute; lia).
  assert (Hk : In (lower (lit "data center")) keywords)
    by (vm_compute; left; reflexivity).
  assert (Ho : occurs_in (lit "data center") (strip scenario_first))
    by (apply contains_iff; vm_compute; reflexivity).
  assert (He : (exists d, In d (strip scenario_first) /\ isdigit d = true) \/
               (exists k', In (lower k') strong_words /\
                           occurs_in k' (strip scenario_first))).
  { right. exists (lit "will"). split.
    - vm_compute. right. right. left. reflexivity.
    - apply contains_iff. vm_compute. reflexivity. }
  destruct (@extract_claims_complete _ now scenario_text detail_url [] 0
              scenario_first (lit "data center") Hp Hl Hk Ho He)
    as [c [Hc [Ht _]]].
  exists c. split; [exact Hc | exact Ht].
Defined.

Lemma claim_text_is_excerpt_witness :
  occurs_in (text scenario_claim) scenario_text /\
  length (text scenario_claim) <= length scenario_text.
Proof.
  apply (claim_text_is_excerpt now scenario_text
           (source_url scenario_claim) (source_title scenario_claim) 0).
  vm_compute. left. reflexivity.
Defined.

Lemma short_text_no_claims_witness :
  extract_claims_from_text now (lit "Capacity: 5 MW.") detail_url [] 0 = ([], 0).
Proof.
  apply short_text_no_claims. vm_compute. lia.
Defined.

Lemma no_keyword_no_claims_witness :
  extract_claims_from_text now (lit "The council will require 50 new permits in 2025.")
    detail_url [] 0 = ([], 0).
Proof.
  apply no_keyword_no_claims. intros kw Hin Hocc.
  assert (E : existsb (fun kw => contains kw (lower (lit "The council will require 50 new permits in 2025.")))
                keywords = false) by (vm_compute; reflexivity).
  assert (E' : existsb (fun kw => contains kw (lower (lit "The council will require 50 new permits in 2025.")))
                 keywords = true); [|congruence].
  apply existsb_exists. exists kw. split; [assumption | now apply contains_iff].
Defined.

Lemma decompose_all_removes_witness :
  named non_content detail_paragraph = false.
Proof.
  apply (decompose_all_removes non_content detail_page).
  vm_compute. left. reflexivity.
Defined.

Lemma decompose_all_unchanged_witness :
  decompose_all non_content news_page = news_page.
Proof.
  apply decompose_all_unchanged. intros d Hd. vm_compute in Hd.
  destruct Hd as [<- | [<- | []]]; reflexivity.
Defined.


Lemma unknown_origin_witness :
  search_legistar_legislation http_get (lit "oakland") (lit "data center") 90 0 =
    (Returns [], 0) /\
  search_news_sources http_get (lit "pge") 0 = (Returns [], 0).
Proof.
  destruct (unknown_origin_no_request http_get (lit "oakland") (lit "data center")
              (lit "pge") 90 0) as [Hleg Hnews].
  split.
  - apply Hleg; discriminate.
  - apply Hnews; discriminate.
Defined.



Lemma news_blocks_witness :
  exists block,
    In block (find_all (by_name "article") svp_listing) /\
    matches (by_name "article") block = true /\
    news_article (lit "svp") block = Emitted svp_record.
Proof.
  apply (news_blocks_articles_first http_get (lit "svp") 0).
  - vm_compute. reflexivity.
  - vm_compute. discriminate.
  - vm_compute. left. reflexivity.
Defined.

Lemma resolve_url_stable_witness :
  resolve_url sanjose_base (Some (AttrStr detail_url)) = Some (Some detail_url).
Proof.
  apply (@resolve_url_stable sanjose_base (lit "/LegislationDetail.aspx?ID=1")).
  - vm_compute. reflexivity.
  - vm_compute. reflexivity.
Defined.

Lemma report_sources_shape_witness :
  exists report registers news,
    fst (run_full_scrape http_get now 0) = Returns report /\
    sources report = registers ++ news /\
    Forall is_register_record registers /\
    Forall is_news_record news.
Proof.
  destruct (fst (run_full_scrape http_get now 0)) as [report | e] eqn:Er;
    [|vm_compute in Er; discriminate].
  destruct (report_sources_shape http_get now 0 Er) as [registers [news H]].
  exists report, registers, news. split; [reflexivity | exact H].
Defined.

Lemma report_claims_provenance_witness :
  exists report pre s post,
    fst (run_full_scrape http_get now 0) = Returns report /\
    sources report = pre ++ s :: post /\
    let w' := snd (each_E (source_claims http_get now) pre
                     (snd (each_E (search_origin http_get) origins 0))) in
    In scenario_claim (records (fst (source_claims http_get now s w'))) /\
    source_url_of s = Some (source_url scenario_claim) /\
    source_title_of s = source_title scenario_claim /\
    exists t,
      fst (extract_text_from_url http_get (source_url scenario_claim) w') =
        Returns (Some t) /\
      occurs_in (text scenario_claim) t.
Proof.
  destruct (fst (run_full_scrape http_get now 0)) as [report | e] eqn:Er;
    [|vm_compute in Er; discriminate].
  assert (Hc : In scenario_claim (claims report)).
  { vm_compute in Er. injection Er as <-. vm_compute. left. reflexivity. }
  destruct (report_claims_provenance http_get now 0 scenario_claim Er Hc)
    as [pre [s [post H]]].
  exists report, pre, s, post. split; [reflexivity | exact H].
Defined.

Lemma offline_report_witness :
  exists report,
    fst (run_full_scrape offline now 0) = Returns report /\
    sources report = [] /\ claims report = [] /\
    total_sources report = 0 /\ total_claims report = 0.
Proof.
  apply (offline_report_empty offline now 0). intros req w'. left. reflexivity.
Defined.

Lemma runs_agree_witness :
  exists r1 r2,
    fst (run_full_scrape http_get now 0) = Returns r1 /\
    fst (run_full_scrape http_get now 7) = Returns r2 /\
    sources r1 = sources r2 /\
    map claim_content (claims r1) = map claim_content (claims r2) /\
    total_sources r1 = total_sources r2 /\
    total_claims r1 = total_claims r2.
Proof.
  destruct (fst (run_full_scrape http_get now 0)) as [r1 | e] eqn:Er;
    [|vm_compute in Er; discriminate].
  assert (Hw : forall req v1 v2, fst (http_get req v1) = fst (http_get req v2))
    by (intros req v1 v2; reflexivity).
  destruct (runs_agree_up_to_time http_get now 0 7 Hw Er) as [r2 H].
  exists r1, r2. split; [reflexivity | exact H].
Defined.

End MoreInstances.
